(** * monoimporter: a monorepo-compatible types.Importer

    Shallow embedding of [src/pkg/monoimporter/monoimporter.go] and the
    properties its specification states about the lookup strategies
    ("finders"), their precedence, the import cache and the lifetime of the
    opened archive streams. *)

From Stdlib Require Import String Ascii List Arith Bool Lia.
From stdpp Require Import base option list gmap strings.

Local Open Scope string_scope.
Local Open Scope list_scope.

(** ** The parts of Go's [strings] package the importer calls

    Go strings are byte strings; [string] is a list of 8-bit [ascii]. *)

Module GoStrings.

(** [strings.HasPrefix]:
    [len(s) >= len(prefix) && s[0:len(prefix)] == prefix]. *)
Definition HasPrefix (s prefix : string) : bool :=
  Nat.leb (String.length prefix) (String.length s)
  && String.eqb (substring 0 (String.length prefix) s) prefix.

(** [strings.HasSuffix]:
    [len(s) >= len(suffix) && s[len(s)-len(suffix):] == suffix]. *)
Definition HasSuffix (s suffix : string) : bool :=
  Nat.leb (String.length suffix) (String.length s)
  && String.eqb
       (substring (String.length s - String.length suffix)
                  (String.length suffix) s)
       suffix.

(** [strings.TrimPrefix]: [s] without the leading [prefix], or [s] itself
    when it does not start with [prefix]. *)
Definition TrimPrefix (s prefix : string) : string :=
  if HasPrefix s prefix
  then substring (String.length prefix)
                 (String.length s - String.length prefix) s
  else s.

(** [strings.Split(s, sep)] for a one-byte separator, which is how the
    importer calls it ([":"]): the pieces of [s] between the occurrences
    of [sep], one more than there are occurrences. *)
Fixpoint Split (s : string) (sep : ascii) : list string :=
  match s with
  | EmptyString => [EmptyString]
  | String c rest =>
      if Ascii.eqb c sep then EmptyString :: Split rest sep
      else match Split rest sep with
           | [] => [String c EmptyString]
           | piece :: pieces => String c piece :: pieces
           end
  end.

(** [strings.Count(s, sep)] for a one-byte separator. *)
Fixpoint Count (s : string) (sep : ascii) : nat :=
  match s with
  | EmptyString => 0
  | String c rest => (if Ascii.eqb c sep then 1 else 0) + Count rest sep
  end.

(** [strings.Join(elems, sep)] for a one-byte separator. *)
Fixpoint Join (elems : list string) (sep : ascii) : string :=
  match elems with
  | [] => EmptyString
  | [e] => e
  | e :: rest => String.append e (String sep (Join rest sep))
  end.

End GoStrings.



(** ** Data model *)

(** Go's [error] values.  The importer builds two of them itself with
    [fmt.Errorf]; every other error comes out of [os], [archive/zip] or
    [gcexportdata] and is passed on unchanged. *)
Inductive error : Type :=
  | ErrExternal (msg : string)
    (** [fmt.Errorf("package %q not found", importPath)] *)
  | ErrPackageNotFound (importPath : string)
    (** [fmt.Errorf("archive %q is not goImportPath:goArchiveFilePath", nameAndFile)] *)
  | ErrNotImportPathFile (nameAndFile : list string).

(** A Go [(T, error)] pair of which exactly one side is meaningful. *)
Inductive result (A : Type) : Type :=
  | Ok (a : A)
  | Err (e : error).
Arguments Ok {A} a.
Arguments Err {A} e.

Definition is_Ok {A} (r : result A) : bool :=
  match r with Ok _ => true | Err _ => false end.

(** The fields of [go/build.Context] that [goEnvDir] reads. *)
Record Context : Type := {
  GOOS : string;
  GOARCH : string;
  InstallSuffix : string
}.

(** [*types.Package], as far as the importer looks at it. *)
Record Package : Type := {
  pkg_path : string;
  pkg_name : string;
  Complete : bool
}.

(** [types.Unsafe]: go/types creates it with [NewPackage("unsafe", "unsafe")]
    and sets its [complete] flag. *)
Definition types_Unsafe : Package :=
  {| pkg_path := "unsafe"; pkg_name := "unsafe"; Complete := true |}.

(** [os.FileInfo]. *)
Record FileInfo : Type := { IsDir : bool }.

(** A [*zip.File] of a bundle: its name and what [Open] gives. *)
Record zip_File : Type := {
  Name : string;
  zf_Open : result string
}.

(** [zip.Reader]: the table of contents of a bundle. *)
Record zip_Reader : Type := { File : list zip_File }.

(** Where an open stream comes from. *)
Inductive Source : Type :=
  | FromFile (path : string)
  | FromZip (name : string).

(** A non-nil [io.ReadCloser]: the number the open stream is known by in
    the trace, its origin and the bytes it yields. The number stands for
    the stream, not for a descriptor of the operating system: a file that
    [os.Open] returns has a descriptor of its own, the stream of a bundle
    entry reads through the bundle's file and has none. *)
Record ReadCloser : Type := {
  rc_fd : nat;
  rc_src : Source;
  rc_data : string
}.

(** ** Effects

    What a run does to the outside world is recorded as a trace. *)
Inductive Event : Type :=
  | EvCall (dyn : string) (pkg : string)      (** [f.findAndOpen(pkg)] *)
  | EvStat (path : string)                    (** [os.Stat(path)] *)
  | EvOpen (path : string) (fd : option nat)  (** [os.Open(path)], [None]: failed *)
  | EvZipEntryOpen (name : string) (fd : option nat) (** [Open()] of a [zip.File] *)
  | EvClose (fd : nat)                        (** [file.Close()] *)
  | EvNewReader (fd : nat)                    (** [gcexportdata.NewReader(file)] *)
  | EvRead (importPath : string)              (** [gcexportdata.Read(...)] *)
  | EvZipOpenReader (path : string) (ok : bool) (** [zip.OpenReader(path)] *)
  | EvLog (msg : string).                     (** [log.Printf] *)

Record State : Type := {
  next_fd : nat;
  trace : list Event
}.

(** The state monad the embedded functions run in. *)
Definition M (A : Type) : Type := State -> A * State.

Definition ret {A} (a : A) : M A := fun st => (a, st).

Definition bind {A B} (m : M A) (k : A -> M B) : M B :=
  fun st => let (a, st') := m st in k a st'.

Declare Scope go_scope.
Delimit Scope go_scope with go.
Notation "x <- c1 ;; c2" := (bind c1 (fun x => c2))
  (at level 100, c1 at next level, right associativity) : go_scope.
Notation "c1 ;;; c2" := (bind c1 (fun _ => c2))
  (at level 100, right associativity) : go_scope.
Local Open Scope go_scope.

Definition emit (ev : Event) : M unit :=
  fun st => (tt, {| next_fd := next_fd st; trace := trace st ++ [ev] |}).

(** A successful open numbers the stream it returns with the next free
    number. *)
Definition fresh_fd : M nat :=
  fun st => (next_fd st, {| next_fd := S (next_fd st); trace := trace st |}).

(** How often the stream of number [fd] is closed in a trace. *)
Fixpoint closes (fd : nat) (tr : list Event) : nat :=
  match tr with
  | [] => 0
  | EvClose fd' :: tr' => (if Nat.eqb fd fd' then 1 else 0) + closes fd tr'
  | _ :: tr' => closes fd tr'
  end.

(** The strategies called in a trace, in order. *)
Fixpoint calls (tr : list Event) : list string :=
  match tr with
  | [] => []
  | EvCall dyn _ :: tr' => dyn :: calls tr'
  | _ :: tr' => calls tr'
  end.

(** ** The world outside the package

    The file system, [path/filepath], [archive/zip] and the export-data
    decoder are not part of the package; the embedding takes them as they
    are. A file's content does not change during a run. *)
Record Env : Type := {
  os_Stat : string -> result FileInfo;
  os_Open : string -> result string;
  filepath_Join : string -> string -> string;
  filepath_Base : string -> string;
  filepath_Match : string -> string -> result bool;
  zip_OpenReader : string -> result zip_Reader;
  (** [gcexportdata.NewReader]: the export data section of an archive. *)
  gcexportdata_NewReader : ReadCloser -> result string;
  (** [gcexportdata.Read(r, fset, imports, path)]: the decoded package, and
      the [imports] map as [Read] leaves it. *)
  gcexportdata_Read :
    string -> gmap string Package -> string ->
    gmap string Package * result Package
}.

(** ** The package *)

(** [type finder interface { findAndOpen(pkg string) io.ReadCloser }]: an
    interface value is its dynamic type and its method; the nil interface
    is [None] in a [list (option finder)]. *)
Record finder : Type := {
  dyn_type : string;
  findAndOpen : string -> M (option ReadCloser)
}.

(** The method call [f.findAndOpen(pkg)]. *)
Definition invoke (f : finder) (pkg : string) : M (option ReadCloser) :=
  emit (EvCall (dyn_type f) pkg) ;;; findAndOpen f pkg.

(** [func find(finders []finder, pkg string) io.ReadCloser] *)
Fixpoint find (finders : list (option finder)) (pkg : string)
  : M (option ReadCloser) :=
  match finders with
  | [] => ret None
  | None :: rest => find rest pkg
  | Some f :: rest =>
      file <- invoke f pkg ;;
      match file with
      | Some rc => ret (Some rc)
      | None => find rest pkg
      end
  end.

(** [type zipReader struct]: the build context and the name index;
    [newZipReader] fills [files] from [stdlib.File]. *)
Record zipReader : Type := {
  z_ctxt : Context;
  z_stdlib : zip_Reader;
  z_files : gmap string zip_File
}.

(** [func newZipReader(stdlib *zip.Reader, ctxt build.Context) *zipReader]:
    [z.files[file.Name] = file] for each entry in order, so of two entries
    with one name the later stays. *)
Definition newZipReader (stdlib : zip_Reader) (ctxt : Context) : zipReader :=
  {| z_ctxt := ctxt;
     z_stdlib := stdlib;
     z_files :=
       fold_left (fun files file => <[Name file := file]> files)
                 (File stdlib) ∅ |}.

(** [func goEnvDir(ctxt build.Context) string]:
    [GOOS_GOARCH[_InstallSuffix]]. *)
Definition goEnvDir (ctxt : Context) : string :=
  let suffix :=
    if Nat.ltb 0 (String.length (InstallSuffix ctxt))
    then "_" +:+ InstallSuffix ctxt
    else "" in
  GOOS ctxt +:+ "_" +:+ GOARCH ctxt +:+ suffix.

(** [type stdlibArchives struct { ctxt build.Context; archs []string }] *)
Record stdlibArchives : Type := {
  sa_ctxt : Context;
  sa_archs : list string
}.

(** [type unmappedArchives struct { archs []string }] *)
Record unmappedArchives : Type := { ua_archs : list string }.

(** [type mappedArchives struct { pkgs map[string]string }] *)
Record mappedArchives : Type := { pkgs : gmap string string }.

(** [type Importer struct]; [fset], which only the decoder's position
    bookkeeping uses, is left out. A nil pointer field is [None]. *)
Record Importer : Type := {
  imports : gmap string Package;
  mapped : option mappedArchives;
  unmapped : option unmappedArchives;
  stdlib : option stdlibArchives;
  stdlibZip : option zipReader
}.

Section Monoimporter.

Variable env : Env.

(** [os.Stat(name)] *)
Definition Stat (name : string) : M (result FileInfo) :=
  emit (EvStat name) ;;; ret (os_Stat env name).

(** [os.Open(name)] *)
Definition Open (name : string) : M (result ReadCloser) :=
  match os_Open env name with
  | Ok data =>
      fd <- fresh_fd ;;
      emit (EvOpen name (Some fd)) ;;;
      ret (Ok {| rc_fd := fd; rc_src := FromFile name; rc_data := data |})
  | Err e => emit (EvOpen name None) ;;; ret (Err e)
  end.

(** [f.Open()] on an entry of the bundle. The stream it returns is a new
    [io.ReadCloser] and is numbered like any other; it opens no file. *)
Definition zip_File_Open (f : zip_File) : M (result ReadCloser) :=
  match zf_Open f with
  | Ok data =>
      fd <- fresh_fd ;;
      emit (EvZipEntryOpen (Name f) (Some fd)) ;;;
      ret (Ok {| rc_fd := fd; rc_src := FromZip (Name f); rc_data := data |})
  | Err e => emit (EvZipEntryOpen (Name f) None) ;;; ret (Err e)
  end.

(** [file.Close()] *)
Definition Close (file : ReadCloser) : M unit := emit (EvClose (rc_fd file)).

(** [func (z *zipReader) findAndOpen(pkg string) io.ReadCloser] *)
Definition zipReader_findAndOpen (z : zipReader) (pkg : string)
  : M (option ReadCloser) :=
  let pkg := GoStrings.TrimPrefix pkg "google3/" in
  let name := goEnvDir (z_ctxt z) +:+ "/" +:+ pkg +:+ ".x" in
  match z_files z !! name with
  | None => ret None
  | Some f =>
      rc <- zip_File_Open f ;;
      match rc with
      | Err _ => ret None
      | Ok rc => ret (Some rc)
      end
  end.

(** The body of the loop of [stdlibArchives.findAndOpen] over [a.archs]. *)
Fixpoint stdlibArchives_loop (archs : list string) (name : string)
  : M (option ReadCloser) :=
  match archs with
  | [] => ret None
  | filename :: rest =>
      fi <- Stat filename ;;
      inDir <-
        match fi with
        | Ok fi =>
            if IsDir fi then
              f <- Open (filepath_Join env filename name) ;;
              match f with
              | Ok f => ret (Some f)
              | Err _ => ret None
              end
            else ret None
        | Err _ => ret None
        end ;;
      match inDir with
      | Some f => ret (Some f)
      | None =>
          if GoStrings.HasSuffix filename name then
            ar <- Open filename ;;
            match ar with
            | Ok ar => ret (Some ar)
            | Err _ => stdlibArchives_loop rest name
            end
          else stdlibArchives_loop rest name
      end
  end.

(** [func (a stdlibArchives) findAndOpen(pkg string) io.ReadCloser] *)
Definition stdlibArchives_findAndOpen (a : stdlibArchives) (pkg : string)
  : M (option ReadCloser) :=
  let name := "/" +:+ goEnvDir (sa_ctxt a) +:+ "/" +:+ pkg +:+ ".a" in
  stdlibArchives_loop (sa_archs a) name.

(** The loop of [unmappedArchives.findAndOpen] over [a.archs]. *)
Fixpoint unmappedArchives_loop (archs : list string) (name : string)
  : M (option ReadCloser) :=
  match archs with
  | [] => ret None
  | filename :: rest =>
      if GoStrings.HasSuffix filename name then
        ar <- Open filename ;;
        match ar with
        | Ok ar => ret (Some ar)
        | Err _ => unmappedArchives_loop rest name
        end
      else unmappedArchives_loop rest name
  end.

(** [func (a unmappedArchives) findAndOpen(pkg string) io.ReadCloser] *)
Definition unmappedArchives_findAndOpen (a : unmappedArchives) (pkg : string)
  : M (option ReadCloser) :=
  let pkg := GoStrings.TrimPrefix pkg "google3/" in
  let name := "/" +:+ pkg +:+ ".x" in
  unmappedArchives_loop (ua_archs a) name.

(** [func (a mappedArchives) findAndOpen(pkg string) io.ReadCloser] *)
Definition mappedArchives_findAndOpen (a : mappedArchives) (pkg : string)
  : M (option ReadCloser) :=
  match pkgs a !! pkg with
  | Some filename =>
      f <- Open filename ;;
      match f with
      | Ok f => ret (Some f)
      | Err _ => ret None
      end
  | None => ret None
  end.

(** The four strategies as values of the [finder] interface. *)
Definition zipReader_finder (z : zipReader) : finder :=
  {| dyn_type := "*zipReader"; findAndOpen := zipReader_findAndOpen z |}.
Definition mappedArchives_finder (a : mappedArchives) : finder :=
  {| dyn_type := "*mappedArchives"; findAndOpen := mappedArchives_findAndOpen a |}.
Definition stdlibArchives_finder (a : stdlibArchives) : finder :=
  {| dyn_type := "*stdlibArchives"; findAndOpen := stdlibArchives_findAndOpen a |}.
Definition unmappedArchives_finder (a : unmappedArchives) : finder :=
  {| dyn_type := "*unmappedArchives"; findAndOpen := unmappedArchives_findAndOpen a |}.

(** The loop of [NewFromZips] over [stdlibZips]: the first candidate whose
    base name matches [wantPattern] is opened; a pattern error is logged
    and the candidate skipped; a bundle that does not open ends the
    construction. A bundle that opens stays open: [NewFromZips] never
    closes it, whatever happens next. Its opening is recorded in the
    trace; it is not one of the numbered streams, which are the ones a
    lookup returns. *)
Fixpoint pickStdlibZip (wantPattern : string) (stdlibZips : list string)
  : M (result (option zip_Reader)) :=
  match stdlibZips with
  | [] => ret (Ok None)
  | dir :: rest =>
      match filepath_Match env wantPattern (filepath_Base env dir) with
      | Err _ => emit (EvLog wantPattern) ;;; pickStdlibZip wantPattern rest
      | Ok true =>
          match zip_OpenReader env dir with
          | Err err => emit (EvZipOpenReader dir false) ;;; ret (Err err)
          | Ok stdlibZ => emit (EvZipOpenReader dir true) ;;; ret (Ok (Some stdlibZ))
          end
      | Ok false => pickStdlibZip wantPattern rest
      end
  end.

(** The loop of [NewFromZips] over [mappedArchs], filling [ma.pkgs]. *)
Fixpoint fillMapped (mappedArchs : list string) (pkgs : gmap string string)
  : result (gmap string string) :=
  match mappedArchs with
  | [] => Ok pkgs
  | archive :: rest =>
      let nameAndFile := GoStrings.Split archive ":" in
      match nameAndFile with
      | [name; file] => fillMapped rest (<[name := file]> pkgs)
      | _ => Err (ErrNotImportPathFile nameAndFile)
      end
  end.

(** [func New(ctxt, ua, ma, sa, stdlibZip)] *)
Definition New (ctxt : Context) (ua : option unmappedArchives)
    (ma : option mappedArchives) (sa : option stdlibArchives)
    (stdlibZip : option zip_Reader) : Importer :=
  {| imports := {[ "unsafe" := types_Unsafe ]};
     mapped := ma;
     stdlib := sa;
     unmapped := ua;
     stdlibZip :=
       match stdlibZip with
       | Some stdlibZip => Some (newZipReader stdlibZip ctxt)
       | None => None
       end |}.

(** [func NewFromZips(ctxt, unmappedArchs, mappedArchs, stdlibArchs,
    stdlibZips []string)], returning an [Importer] or an error *)
Definition NewFromZips (ctxt : Context)
    (unmappedArchs mappedArchs stdlibArchs stdlibZips : list string)
  : M (result Importer) :=
  let ctxtWithWildcard :=
    {| GOOS := GOOS ctxt;
       GOARCH := GOARCH ctxt +:+ "*";
       InstallSuffix := InstallSuffix ctxt |} in
  let wantPattern := goEnvDir ctxtWithWildcard +:+ ".x.zip" in
  stdlib <- pickStdlibZip wantPattern stdlibZips ;;
  match stdlib with
  | Err err => ret (Err err)
  | Ok stdlib =>
      match fillMapped mappedArchs ∅ with
      | Err err => ret (Err err)
      | Ok pkgs =>
          let ma := {| pkgs := pkgs |} in
          let sa := {| sa_ctxt := ctxt; sa_archs := stdlibArchs |} in
          let ua := {| ua_archs := unmappedArchs |} in
          ret (Ok (New ctxt (Some ua) (Some ma) (Some sa) stdlib))
      end
  end.

(** The finders [Import] collects, in the order it appends them. *)
Definition finders_of (i : Importer) : list (option finder) :=
  let finders := [] in
  let finders :=
    match stdlibZip i with
    | Some z => finders ++ [Some (zipReader_finder z)]
    | None => finders
    end in
  let finders :=
    match mapped i with
    | Some a => finders ++ [Some (mappedArchives_finder a)]
    | None => finders
    end in
  let finders :=
    match stdlib i with
    | Some a => finders ++ [Some (stdlibArchives_finder a)]
    | None => finders
    end in
  match unmapped i with
  | Some a => finders ++ [Some (unmappedArchives_finder a)]
  | None => finders
  end.

Definition set_imports (i : Importer) (m : gmap string Package) : Importer :=
  {| imports := m;
     mapped := mapped i;
     unmapped := unmapped i;
     stdlib := stdlib i;
     stdlibZip := stdlibZip i |}.

(** [Import] from [file := find(finders, importPath)] on, once a stream
    was found: [defer file.Close()] runs after the decoder, whichever way
    the function returns. *)
Definition decode (i : Importer) (importPath : string) (file : ReadCloser)
  : M (result Package * Importer) :=
  out <-
    (emit (EvNewReader (rc_fd file)) ;;;
     match gcexportdata_NewReader env file with
     | Err err => ret (Err err, i)
     | Ok r =>
         emit (EvRead importPath) ;;;
         let (imports', res) := gcexportdata_Read env r (imports i) importPath in
         ret (res, set_imports i imports')
     end) ;;
  Close file ;;;
  ret out.

(** [Import] past the cache test. *)
Definition resolve (i : Importer) (importPath : string)
  : M (result Package * Importer) :=
  file <- find (finders_of i) importPath ;;
  match file with
  | None => ret (Err (ErrPackageNotFound importPath), i)
  | Some file => decode i importPath file
  end.

(** [Importer.Import(importPath string)], returning a package or an error;
    the importer is returned with the [imports] map as the call leaves
    it. *)
Definition Import (i : Importer) (importPath : string)
  : M (result Package * Importer) :=
  match imports i !! importPath with
  | Some pkg => if Complete pkg then ret (Ok pkg, i) else resolve i importPath
  | None => resolve i importPath
  end.

End Monoimporter.

(** [all_miss finders pkg st st']: started in [st], the finders of the list
    that are not nil are called one after the other, each one reports
    absent, and the last one leaves [st']. *)
Inductive all_miss (pkg : string) : list (option finder) -> State -> State -> Prop :=
  | all_miss_nil st : all_miss pkg [] st st
  | all_miss_skip rest st st' :
      all_miss pkg rest st st' -> all_miss pkg (None :: rest) st st'
  | all_miss_call f rest st st1 st' :
      invoke f pkg st = (None, st1) ->
      all_miss pkg rest st1 st' ->
      all_miss pkg (Some f :: rest) st st'.

(** ** The stores, read without effects

    What each strategy's backing store holds for an import path: the origin
    and the bytes of the stream the strategy opens, or nothing. These
    functions restate the strategies as plain lookups; the theorems below
    show that the embedded methods compute them. *)

(** The first of [paths] that [os.Open] opens. *)
Fixpoint first_open (env : Env) (paths : list string) : option (Source * string) :=
  match paths with
  | [] => None
  | path :: rest =>
      match os_Open env path with
      | Ok data => Some (FromFile path, data)
      | Err _ => first_open env rest
      end
  end.

(** The bundle key of an import path: [<goEnvDir>/<pkg>.x]. *)
Definition zip_key (ctxt : Context) (pkg : string) : string :=
  goEnvDir ctxt +:+ "/" +:+ GoStrings.TrimPrefix pkg "google3/" +:+ ".x".

(** The suffix the standard-library strategy looks for: [/<goEnvDir>/<pkg>.a]. *)
Definition stdlib_key (ctxt : Context) (pkg : string) : string :=
  "/" +:+ goEnvDir ctxt +:+ "/" +:+ pkg +:+ ".a".

(** The suffix the unmapped strategy looks for: [/<pkg>.x]. *)
Definition unmapped_key (pkg : string) : string :=
  "/" +:+ GoStrings.TrimPrefix pkg "google3/" +:+ ".x".

Definition zip_lookup (z : zipReader) (pkg : string) : option (Source * string) :=
  match z_files z !! zip_key (z_ctxt z) pkg with
  | Some f =>
      match zf_Open f with
      | Ok data => Some (FromZip (Name f), data)
      | Err _ => None
      end
  | None => None
  end.

Definition mapped_lookup (env : Env) (a : mappedArchives) (pkg : string)
  : option (Source * string) :=
  match pkgs a !! pkg with
  | Some filename => first_open env [filename]
  | None => None
  end.

(** The paths the standard-library strategy tries to open, in order: for
    each configured path, the file under it when it is a directory, then the
    path itself when it ends in the key. *)
Fixpoint stdlib_candidates (env : Env) (archs : list string) (name : string)
  : list string :=
  match archs with
  | [] => []
  | filename :: rest =>
      (match os_Stat env filename with
       | Ok fi => if IsDir fi then [filepath_Join env filename name] else []
       | Err _ => []
       end)
      ++ (if GoStrings.HasSuffix filename name then [filename] else [])
      ++ stdlib_candidates env rest name
  end.

Definition stdlib_lookup (env : Env) (a : stdlibArchives) (pkg : string)
  : option (Source * string) :=
  first_open env (stdlib_candidates env (sa_archs a) (stdlib_key (sa_ctxt a) pkg)).

(** The configured paths that end in the key. *)
Definition unmapped_candidates (archs : list string) (name : string) : list string :=
  List.filter (fun filename => GoStrings.HasSuffix filename name) archs.

Definition unmapped_lookup (env : Env) (a : unmappedArchives) (pkg : string)
  : option (Source * string) :=
  first_open env (unmapped_candidates (ua_archs a) (unmapped_key pkg)).

(** The configured strategies of an importer in the order [Import] queries
    them, each with its dynamic type and what its store holds for the path. *)
Definition strategies (env : Env) (i : Importer) (pkg : string)
  : list (string * option (Source * string)) :=
  (match stdlibZip i with Some z => [("*zipReader", zip_lookup z pkg)] | None => [] end)
  ++ (match mapped i with Some a => [("*mappedArchives", mapped_lookup env a pkg)] | None => [] end)
  ++ (match stdlib i with Some a => [("*stdlibArchives", stdlib_lookup env a pkg)] | None => [] end)
  ++ (match unmapped i with Some a => [("*unmappedArchives", unmapped_lookup env a pkg)] | None => [] end).

(** The exact-match strategies alone. *)
Definition exact_strategies (env : Env) (i : Importer) (pkg : string)
  : list (string * option (Source * string)) :=
  (match stdlibZip i with Some z => [("*zipReader", zip_lookup z pkg)] | None => [] end)
  ++ (match mapped i with Some a => [("*mappedArchives", mapped_lookup env a pkg)] | None => [] end).

(** The first stream a list of strategies has to offer. *)
Fixpoint first_hit {X} (l : list (string * option X)) : option X :=
  match l with
  | [] => None
  | (_, Some x) :: _ => Some x
  | (_, None) :: rest => first_hit rest
  end.

(** The strategies queried until that stream is found. *)
Fixpoint queried {X} (l : list (string * option X)) : list string :=
  match l with
  | [] => []
  | (dyn, Some _) :: _ => [dyn]
  | (dyn, None) :: rest => dyn :: queried rest
  end.

(** The complete cache entry of an import path, if there is one. *)
Definition cached (i : Importer) (importPath : string) : option Package :=
  match imports i !! importPath with
  | Some pkg => if Complete pkg then Some pkg else None
  | None => None
  end.

(** Events of a lookup: a stat or an attempt to open; with the strategy
    calls, the events of a run of [find]. *)
Definition is_lookup (ev : Event) : bool :=
  match ev with
  | EvStat _ | EvOpen _ _ | EvZipEntryOpen _ _ => true
  | _ => false
  end.

Definition is_search (ev : Event) : bool :=
  match ev with
  | EvCall _ _ | EvStat _ | EvOpen _ _ | EvZipEntryOpen _ _ => true
  | _ => false
  end.

(** The stream a successful lookup returns in state [st], and the state it
    leaves after the events [evs]. *)
Definition stream_at (st : State) (hit : Source * string) : ReadCloser :=
  {| rc_fd := next_fd st; rc_src := fst hit; rc_data := snd hit |}.

Definition after (st : State) (opened : bool) (evs : list Event) : State :=
  {| next_fd := (if opened then S (next_fd st) else next_fd st);
     trace := trace st ++ evs |}.

Definition found {X} (o : option X) : bool :=
  match o with Some _ => true | None => false end.

(** [computes m expected]: whatever the state, the lookup [m] returns the
    stream [expected] describes under the next free number, or absent when
    there is none, and adds to the trace only events of kind [kind]. *)
Definition computes (kind : Event -> bool) (m : M (option ReadCloser))
    (expected : option (Source * string)) : Prop :=
  forall st, exists evs,
    forallb kind evs = true /\
    m st = (stream_at st <$> expected, after st (found expected) evs).

(** [implements pkg f s]: the interface value [f] is a strategy of dynamic
    type [fst s] whose method computes the plain lookup [snd s]. *)
Definition implements (pkg : string) (f : option finder)
    (s : string * option (Source * string)) : Prop :=
  exists g, f = Some g /\ dyn_type g = fst s /\
            computes is_lookup (findAndOpen g pkg) (snd s).


(** The pattern [NewFromZips] matches the base names of the candidate
    bundles against: [goEnvDir] with a wildcard after the architecture. *)
Definition wantPattern (ctxt : Context) : string :=
  goEnvDir {| GOOS := GOOS ctxt;
              GOARCH := GOARCH ctxt +:+ "*";
              InstallSuffix := InstallSuffix ctxt |} +:+ ".x.zip".

(** An entry of the mapped-archive list is well formed when it holds the
    separator exactly once. *)
Definition one_separator (archive : string) : bool :=
  Nat.eqb (GoStrings.Count archive ":") 1.

(** What the decoder's two steps give for a stream. *)
Definition decoded (env : Env) (i : Importer) (importPath : string) (file : ReadCloser)
  : (result Package * Importer) * list Event :=
  match gcexportdata_NewReader env file with
  | Err err => ((Err err, i), [EvNewReader (rc_fd file); EvClose (rc_fd file)])
  | Ok r =>
      let (imports', res) := gcexportdata_Read env r (imports i) importPath in
      ((res, set_imports i imports'),
       [EvNewReader (rc_fd file); EvRead importPath; EvClose (rc_fd file)])
  end.

(** ** A sample world

    A small file system, a bundle and a decoder, to run the importer on. *)
Module Sample.

Definition ctxt : Context :=
  {| GOOS := "linux"; GOARCH := "amd64"; InstallSuffix := "" |}.

Definition no_such_file : error := ErrExternal "no such file or directory".

Definition disk : list (string * string) :=
  [ ("/std/linux_amd64/errors.a", "stdlib errors");
    ("/goroot/pkg/linux_amd64/fmt.a", "stdlib fmt");
    ("/third_party/golang.org/x/crypto/errors.x", "third-party errors");
    ("/ext/errors.a", "mapped errors");
    ("/ext/garbage.a", "garbage");
    ("/ext/corrupt.a", "corrupt") ].

Definition directories : list string := [ "/goroot/pkg" ].

(** A file that is there but that the process may not read. *)
Definition locked : list string := [ "/locked/linux_amd64/errors.a" ].

Definition permission_denied : error := ErrExternal "permission denied".

Fixpoint assoc (l : list (string * string)) (k : string) : option string :=
  match l with
  | [] => None
  | (k', v) :: rest => if String.eqb k k' then Some v else assoc rest k
  end.

Definition mem (l : list string) (k : string) : bool :=
  existsb (String.eqb k) l.

Definition stat (path : string) : result FileInfo :=
  if mem directories path then Ok {| IsDir := true |}
  else if mem locked path then Ok {| IsDir := false |}
  else match assoc disk path with
       | Some _ => Ok {| IsDir := false |}
       | None => Err no_such_file
       end.

Definition open (path : string) : result string :=
  if mem locked path then Err permission_denied
  else match assoc disk path with
       | Some data => Ok data
       | None => Err no_such_file
       end.

(** Glob matching with [*] as the only wildcard. *)
Fixpoint glob (pattern name : string) : bool :=
  match pattern with
  | EmptyString => match name with EmptyString => true | _ => false end
  | String c pattern' =>
      if Ascii.eqb c "*" then
        (fix star (name : string) : bool :=
           glob pattern' name
           || match name with
              | EmptyString => false
              | String _ name' => star name'
              end) name
      else match name with
           | String d name' => Ascii.eqb c d && glob pattern' name'
           | EmptyString => false
           end
  end.

Definition bundle : zip_Reader :=
  {| File :=
       [ {| Name := "linux_amd64/errors.x"; zf_Open := Ok "bundle errors" |};
         {| Name := "linux_amd64/broken.x";
            zf_Open := Err (ErrExternal "zip: unsupported compression algorithm") |} ] |}.

Definition open_zip (path : string) : result zip_Reader :=
  if String.eqb path "/zips/linux_amd64.x.zip" then Ok bundle
  else Err (ErrExternal "zip: not a valid zip file").

Definition new_reader (file : ReadCloser) : result string :=
  if String.eqb (rc_data file) "garbage"
  then Err (ErrExternal "not an export data file")
  else Ok (rc_data file).

Definition read (r : string) (imports : gmap string Package) (importPath : string)
  : gmap string Package * result Package :=
  if String.eqb r "corrupt" then (imports, Err (ErrExternal "corrupt export data"))
  else
    let pkg := {| pkg_path := importPath; pkg_name := r; Complete := true |} in
    (<[importPath := pkg]> imports, Ok pkg).

Definition world : Env :=
  {| os_Stat := stat;
     os_Open := open;
     filepath_Join := fun dir name => dir +:+ name;
     filepath_Base := fun path => List.last (GoStrings.Split path "/") "";
     filepath_Match := fun pattern name => Ok (glob pattern name);
     zip_OpenReader := open_zip;
     gcexportdata_NewReader := new_reader;
     gcexportdata_Read := read |}.

Definition st0 : State := {| next_fd := 3; trace := [] |}.

(** The standard library as archive files and as a directory, one archive
    of a third-party package that ends in [/errors.x]. *)
Definition suffix_only : Importer :=
  New ctxt
    (Some {| ua_archs := ["/third_party/golang.org/x/crypto/errors.x"] |})
    (Some {| pkgs := ∅ |})
    (Some {| sa_ctxt := ctxt;
             sa_archs := ["/std/linux_amd64/errors.a"; "/goroot/pkg"] |})
    None.

(** The same, with [errors] in the mapped archives as well. *)
Definition with_mapped : Importer :=
  New ctxt
    (Some {| ua_archs := ["/third_party/golang.org/x/crypto/errors.x"] |})
    (Some {| pkgs := {[ "errors" := "/ext/errors.a" ]} |})
    (Some {| sa_ctxt := ctxt;
             sa_archs := ["/std/linux_amd64/errors.a"; "/goroot/pkg"] |})
    None.

(** The standard-library archive of [errors] is configured and on disk, but
    does not open. *)
Definition stdlib_locked : Importer :=
  New ctxt
    (Some {| ua_archs := ["/third_party/golang.org/x/crypto/errors.x"] |})
    (Some {| pkgs := ∅ |})
    (Some {| sa_ctxt := ctxt;
             sa_archs := ["/locked/linux_amd64/errors.a"] |})
    None.

(** No strategy configured at all. *)
Definition unconfigured : Importer := New ctxt None None None None.



(** The index of the bundle. *)
Definition zipped : zipReader := newZipReader bundle ctxt.

(** A mapped archive whose file is not on disk. *)
Definition dangling : mappedArchives :=
  {| pkgs := {[ "broken" := "/nowhere/broken.a" ]} |}.

(** The package the sample decoder makes of the bytes [data]. *)
Definition decoded_as (importPath data : string) : Package :=
  {| pkg_path := importPath; pkg_name := data; Complete := true |}.

(** An importer built by [NewFromZips] from the bundle and one mapped
    archive. *)
Definition built : result Importer * State :=
  NewFromZips world ctxt [] ["errors:/ext/errors.a"] []
              ["/zips/linux_amd64.x.zip"] st0.

(** [errors] is in the mapped archives, but its file is not on disk. *)
Definition mapped_unreadable : Importer :=
  New ctxt
    (Some {| ua_archs := ["/third_party/golang.org/x/crypto/errors.x"] |})
    (Some {| pkgs := {[ "errors" := "/nowhere/errors.a" ]} |})
    (Some {| sa_ctxt := ctxt;
             sa_archs := ["/std/linux_amd64/errors.a"; "/goroot/pkg"] |})
    None.

(** A bundle whose entry for [errors] does not open. *)
Definition bad_bundle : zip_Reader :=
  {| File :=
       [ {| Name := "linux_amd64/errors.x";
            zf_Open := Err (ErrExternal "zip: unsupported compression algorithm") |} ] |}.

Definition bundle_unreadable : Importer :=
  New ctxt
    (Some {| ua_archs := ["/third_party/golang.org/x/crypto/errors.x"] |})
    None
    (Some {| sa_ctxt := ctxt;
             sa_archs := ["/std/linux_amd64/errors.a"; "/goroot/pkg"] |})
    (Some bad_bundle).

End Sample.

(** The step of the loop of [newZipReader]: [z.files[file.Name] = file]. *)
Definition index_entry (files : gmap string zip_File) (file : zip_File)
  : gmap string zip_File :=
  <[Name file := file]> files.

(** The log lines the loop of [NewFromZips] over the candidate bundles
    writes for a list of candidates: one for each whose base name
    [filepath.Match] rejects the pattern on. *)
Definition pattern_errors (env : Env) (pattern : string) (dirs : list string)
  : list Event :=
  flat_map
    (fun dir =>
       match filepath_Match env pattern (filepath_Base env dir) with
       | Err _ => [EvLog pattern]
       | Ok _ => []
       end)
    dirs.

(** Whether the base name of a candidate bundle matches the pattern. *)
Definition matches (env : Env) (pattern dir : string) : bool :=
  match filepath_Match env pattern (filepath_Base env dir) with
  | Ok true => true
  | _ => false
  end.

(** The events of one round of the loop of [stdlibArchives.findAndOpen] in
    which nothing opens: the stat of the configured path, the failed open
    of the file under it when it is a directory, and the failed open of the
    path itself when it ends in the key. *)
Definition stdlib_attempts (env : Env) (filename name : string) : list Event :=
  EvStat filename
  :: (match os_Stat env filename with
      | Ok fi =>
          if IsDir fi then [EvOpen (filepath_Join env filename name) None] else []
      | Err _ => []
      end)
  ++ (if GoStrings.HasSuffix filename name then [EvOpen filename None] else []).
(** ** Facts about the string functions *)

Module GoStringsFacts.
Import GoStrings.

Lemma Split_length s sep : List.length (Split s sep) = S (Count s sep).
Proof.
  induction s as [|c rest IH]; simpl; [reflexivity|].
  destruct (Ascii.eqb c sep); simpl.
  - now rewrite IH.
  - destruct (Split rest sep) as [|piece pieces]; simpl in *; lia.
Qed.

Lemma Split_nonempty s sep : Split s sep <> [].
Proof.
  intros H. pose proof (Split_length s sep) as L. rewrite H in L.
  simpl in L. lia.
Qed.

Lemma Join_Split s sep : Join (Split s sep) sep = s.
Proof.
  induction s as [|c rest IH]; simpl; [reflexivity|].
  destruct (Ascii.eqb_spec c sep) as [->|Hne].
  - pose proof (Split_nonempty rest sep) as Hn.
    destruct (Split rest sep) as [|piece pieces] eqn:E; [congruence|].
    rewrite <- IH. reflexivity.
  - destruct (Split rest sep) as [|piece pieces] eqn:E.
    + now destruct (Split_nonempty rest sep).
    + rewrite <- IH. now destruct pieces.
Qed.

Example Split_pair : Split "fmt:/lib/fmt.a" ":" = ["fmt"; "/lib/fmt.a"].
Proof. reflexivity. Qed.

Example Split_single : Split "onlyonename" ":" = ["onlyonename"].
Proof. reflexivity. Qed.

Example Split_triple : Split "a:b:c" ":" = ["a"; "b"; "c"].
Proof. reflexivity. Qed.

Example Split_empty : Split "" ":" = [""].
Proof. reflexivity. Qed.

Example HasSuffix_yes :
  HasSuffix "/std/linux_amd64/errors.a" "/linux_amd64/errors.a" = true.
Proof. reflexivity. Qed.

Example HasSuffix_no :
  HasSuffix "/std/linux_amd64/xerrors.a" "/linux_amd64/errors.a" = false.
Proof. reflexivity. Qed.

Example TrimPrefix_yes : TrimPrefix "google3/base/go/log" "google3/" = "base/go/log".
Proof. reflexivity. Qed.

Example TrimPrefix_no : TrimPrefix "errors" "google3/" = "errors".
Proof. reflexivity. Qed.

End GoStringsFacts.

(** ** Reasoning about runs *)



Lemma closes_app fd tr1 tr2 : closes fd (tr1 ++ tr2) = closes fd tr1 + closes fd tr2.
Proof.
  induction tr1 as [|ev tr1 IH]; simpl; [reflexivity|].
  destruct ev; simpl; rewrite IH; lia.
Qed.

Lemma calls_app tr1 tr2 : calls (tr1 ++ tr2) = calls tr1 ++ calls tr2.
Proof.
  induction tr1 as [|ev tr1 IH]; simpl; [reflexivity|].
  destruct ev; simpl; now rewrite IH.
Qed.


Lemma find_hit_head f rest pkg st rc st' :
  invoke f pkg st = (Some rc, st') -> find (Some f :: rest) pkg st = (Some rc, st').
Proof. intros H. simpl. unfold bind. now rewrite H. Qed.

Lemma find_miss_head f rest pkg st st' :
  invoke f pkg st = (None, st') -> find (Some f :: rest) pkg st = find rest pkg st'.
Proof. intros H. simpl. unfold bind. now rewrite H. Qed.

Lemma find_all_miss finders pkg st st' :
  all_miss pkg finders st st' -> find finders pkg st = (None, st').
Proof.
  induction 1 as [st|rest st st' _ IH|f rest st st1 st' Hf _ IH].
  - reflexivity.
  - exact IH.
  - now rewrite (find_miss_head _ _ _ _ _ Hf).
Qed.

Lemma find_app_miss l1 l2 pkg st st1 :
  all_miss pkg l1 st st1 -> find (l1 ++ l2) pkg st = find l2 pkg st1.
Proof.
  induction 1 as [st|rest st st' _ IH|f rest st st1 st' Hf _ IH]; simpl app.
  - reflexivity.
  - exact IH.
  - now rewrite (find_miss_head _ _ _ _ _ Hf).
Qed.

Lemma find_None_inv finders pkg : forall st st',
  find finders pkg st = (None, st') -> all_miss pkg finders st st'.
Proof.
  induction finders as [|[f|] rest IH]; intros st st' H.
  - injection H as <-. constructor.
  - simpl in H. unfold bind in H.
    destruct (invoke f pkg st) as [[rc|] st1] eqn:Hf.
    + discriminate H.
    + econstructor; eauto.
  - constructor. now apply IH.
Qed.

Lemma find_Some_inv finders pkg : forall st rc st',
  find finders pkg st = (Some rc, st') ->
  exists l1 f l2 st1,
    finders = l1 ++ Some f :: l2 /\
    all_miss pkg l1 st st1 /\
    invoke f pkg st1 = (Some rc, st').
Proof.
  induction finders as [|[f|] rest IH]; intros st rc st' H.
  - discriminate H.
  - simpl in H. unfold bind in H.
    destruct (invoke f pkg st) as [[rc'|] st1] eqn:Hf.
    + injection H as -> ->.
      exists [], f, rest, st. repeat split; [constructor | exact Hf].
    + destruct (IH _ _ _ H) as (l1 & g & l2 & st2 & -> & Hm & Hg).
      exists (Some f :: l1), g, l2, st2. repeat split; [|exact Hg].
      econstructor; eauto.
  - destruct (IH _ _ _ H) as (l1 & g & l2 & st2 & -> & Hm & Hg).
    exists (None :: l1), g, l2, st2. repeat split; [|exact Hg].
    now constructor.
Qed.

(** C7. [find] goes through the finder list in order, skipping nil
    entries: it returns a stream exactly when some finder of the list
    returns one after every finder before it reported absent, the stream is
    that finder's, and the state it leaves is the one that finder left, so
    no finder after the first match is called; it returns absent exactly
    when every finder of the list was called and reported absent. *)
Theorem find_first_match (finders : list (option finder)) (pkg : string) (st : State) :
  (forall rc st',
      find finders pkg st = (Some rc, st') <->
      exists l1 f l2 st1,
        finders = l1 ++ Some f :: l2 /\
        all_miss pkg l1 st st1 /\
        invoke f pkg st1 = (Some rc, st'))
  /\
  (forall st', find finders pkg st = (None, st') <-> all_miss pkg finders st st').
Proof.
  split.
  - intros rc st'. split.
    + apply find_Some_inv.
    + intros (l1 & f & l2 & st1 & -> & Hm & Hf).
      rewrite (find_app_miss _ _ _ _ _ Hm).
      now apply find_hit_head.
  - intros st'. split; [apply find_None_inv | apply find_all_miss].
Qed.

(** ** The strategies compute the plain lookups *)

Section Lookups.

Variable env : Env.

Lemma Stat_run name st :
  Stat env name st = (os_Stat env name, after st false [EvStat name]).
Proof. reflexivity. Qed.

Lemma Open_run name st :
  Open env name st =
  match os_Open env name with
  | Ok data =>
      (Ok (stream_at st (FromFile name, data)),
       after st true [EvOpen name (Some (next_fd st))])
  | Err e => (Err e, after st false [EvOpen name None])
  end.
Proof. unfold Open. now destruct (os_Open env name). Qed.

Lemma zip_File_Open_run f st :
  zip_File_Open f st =
  match zf_Open f with
  | Ok data =>
      (Ok (stream_at st (FromZip (Name f), data)),
       after st true [EvZipEntryOpen (Name f) (Some (next_fd st))])
  | Err e => (Err e, after st false [EvZipEntryOpen (Name f) None])
  end.
Proof. unfold zip_File_Open. now destruct (zf_Open f). Qed.

Lemma after_after st b evs1 evs2 :
  after (after st false evs1) b evs2 = after st b (evs1 ++ evs2).
Proof. unfold after. simpl. now rewrite app_assoc. Qed.

Lemma stream_at_after st evs hit : stream_at (after st false evs) hit = stream_at st hit.
Proof. reflexivity. Qed.

Lemma computes_absent kind : computes kind (ret None) None.
Proof.
  intros st. exists []. split; [reflexivity|].
  unfold ret, after. simpl. rewrite app_nil_r. now destruct st.
Qed.

(** A lookup that first adds events of the right kind and then goes on as
    [m'] computes what [m'] computes. *)
Lemma computes_step kind (m m' : M (option ReadCloser)) expected :
  (forall st, exists evs0,
      forallb kind evs0 = true /\ m st = m' (after st false evs0)) ->
  computes kind m' expected ->
  computes kind m expected.
Proof.
  intros Hm Hm' st.
  destruct (Hm st) as (evs0 & K0 & ->).
  destruct (Hm' (after st false evs0)) as (evs & K & ->).
  exists (evs0 ++ evs). split.
  - rewrite forallb_app, K0, K. reflexivity.
  - rewrite after_after. destruct expected as [hit|]; reflexivity.
Qed.

Lemma computes_weaken (kind kind' : Event -> bool) m expected :
  (forall ev, kind ev = true -> kind' ev = true) ->
  computes kind m expected -> computes kind' m expected.
Proof.
  intros Hk Hm st. destruct (Hm st) as (evs & K & E).
  exists evs. split; [|exact E].
  rewrite forallb_forall in *. auto.
Qed.

Lemma zipReader_findAndOpen_computes z pkg :
  computes is_lookup (zipReader_findAndOpen z pkg) (zip_lookup z pkg).
Proof.
  unfold zipReader_findAndOpen, zip_lookup, zip_key.
  destruct (z_files z !! _) as [f|]; [|apply computes_absent].
  intros st. unfold bind. rewrite zip_File_Open_run.
  destruct (zf_Open f) as [data|e].
  - exists [EvZipEntryOpen (Name f) (Some (next_fd st))]. now split.
  - exists [EvZipEntryOpen (Name f) None]. now split.
Qed.

Lemma mappedArchives_findAndOpen_computes a pkg :
  computes is_lookup (mappedArchives_findAndOpen env a pkg) (mapped_lookup env a pkg).
Proof.
  unfold mappedArchives_findAndOpen, mapped_lookup.
  destruct (pkgs a !! pkg) as [filename|]; [|apply computes_absent].
  intros st. unfold bind. rewrite Open_run. simpl.
  destruct (os_Open env filename) as [data|e].
  - exists [EvOpen filename (Some (next_fd st))]. now split.
  - exists [EvOpen filename None]. now split.
Qed.

Lemma unmappedArchives_loop_computes name archs :
  computes is_lookup (unmappedArchives_loop env archs name)
           (first_open env (unmapped_candidates archs name)).
Proof.
  induction archs as [|filename rest IH]; simpl; [apply computes_absent|].
  destruct (GoStrings.HasSuffix filename name); simpl; [|exact IH].
  destruct (os_Open env filename) as [data|e] eqn:Hopen.
  - intros st. unfold bind. rewrite Open_run, Hopen.
    exists [EvOpen filename (Some (next_fd st))]. now split.
  - eapply computes_step; [|exact IH].
    intros st. unfold bind. rewrite Open_run, Hopen.
    exists [EvOpen filename None]. now split.
Qed.

Lemma unmappedArchives_findAndOpen_computes a pkg :
  computes is_lookup (unmappedArchives_findAndOpen env a pkg) (unmapped_lookup env a pkg).
Proof. apply unmappedArchives_loop_computes. Qed.

(** The second half of the loop body of the standard-library strategy: the
    suffix test on the configured path itself. *)
Lemma stdlib_suffix_computes name filename rest :
  computes is_lookup (stdlibArchives_loop env rest name)
           (first_open env (stdlib_candidates env rest name)) ->
  computes is_lookup
    (if GoStrings.HasSuffix filename name
     then bind (Open env filename)
            (fun ar => match ar with
                       | Ok ar => ret (Some ar)
                       | Err _ => stdlibArchives_loop env rest name
                       end)
     else stdlibArchives_loop env rest name)
    (first_open env
       ((if GoStrings.HasSuffix filename name then [filename] else [])
        ++ stdlib_candidates env rest name)).
Proof.
  intros IH.
  destruct (GoStrings.HasSuffix filename name); simpl; [|exact IH].
  destruct (os_Open env filename) as [data|e] eqn:Hopen.
  - intros st. unfold bind. rewrite Open_run, Hopen.
    exists [EvOpen filename (Some (next_fd st))]. now split.
  - eapply computes_step; [|exact IH].
    intros st. unfold bind. rewrite Open_run, Hopen.
    exists [EvOpen filename None]. now split.
Qed.

Lemma stdlibArchives_loop_computes name archs :
  computes is_lookup (stdlibArchives_loop env archs name)
           (first_open env (stdlib_candidates env archs name)).
Proof.
  induction archs as [|filename rest IH]; [apply computes_absent|].
  pose proof (stdlib_suffix_computes name filename rest IH) as Hsuf.
  cbn [stdlibArchives_loop stdlib_candidates].
  destruct (os_Stat env filename) as [fi|e] eqn:Hstat.
  - destruct (IsDir fi) eqn:Hdir.
    + destruct (os_Open env (filepath_Join env filename name)) as [data|e] eqn:Hopen.
      * intros st. unfold bind at 1 2. rewrite Stat_run, Hstat, Hdir.
        unfold bind. rewrite Open_run, Hopen.
        exists [EvStat filename;
                EvOpen (filepath_Join env filename name) (Some (next_fd st))].
        split; [reflexivity|]. cbn [app first_open]. rewrite Hopen.
        unfold ret, after, stream_at. simpl. now rewrite <- app_assoc.
      * cbn [app first_open]. rewrite Hopen.
        eapply computes_step; [|exact Hsuf].
        intros st. unfold bind at 1 2. rewrite Stat_run, Hstat, Hdir.
        unfold bind at 1. rewrite Open_run, Hopen.
        exists [EvStat filename; EvOpen (filepath_Join env filename name) None].
        split; [reflexivity|]. unfold ret. now rewrite after_after.
    + eapply computes_step; [|exact Hsuf].
      intros st. unfold bind at 1 2. rewrite Stat_run, Hstat, Hdir.
      exists [EvStat filename]. now split.
  - eapply computes_step; [|exact Hsuf].
    intros st. unfold bind at 1 2. rewrite Stat_run, Hstat.
    exists [EvStat filename]. now split.
Qed.

Lemma stdlibArchives_findAndOpen_computes a pkg :
  computes is_lookup (stdlibArchives_findAndOpen env a pkg) (stdlib_lookup env a pkg).
Proof. apply stdlibArchives_loop_computes. Qed.

End Lookups.

(** ** The chain *)

Lemma lookup_is_search ev : is_lookup ev = true -> is_search ev = true.
Proof. now destruct ev. Qed.

Lemma lookup_no_calls evs : forallb is_lookup evs = true -> calls evs = [].
Proof.
  induction evs as [|ev evs IH]; [reflexivity|]. simpl.
  intros [Hev Hevs]%andb_prop. destruct ev; try discriminate; auto.
Qed.

Lemma search_no_closes fd evs : forallb is_search evs = true -> closes fd evs = 0.
Proof.
  induction evs as [|ev evs IH]; [reflexivity|]. simpl.
  intros [Hev Hevs]%andb_prop. destruct ev; try discriminate; auto.
Qed.


Lemma invoke_run f pkg st :
  invoke f pkg st = findAndOpen f pkg (after st false [EvCall (dyn_type f) pkg]).
Proof. reflexivity. Qed.

(** [find] over finders that compute plain lookups: it returns the first
    stream those lookups offer, and calls exactly the strategies up to the
    one that offers it. *)
Lemma find_chain pkg finders l :
  Forall2 (implements pkg) finders l ->
  forall st, exists evs,
    forallb is_search evs = true /\
    calls evs = queried l /\
    find finders pkg st =
      (stream_at st <$> first_hit l, after st (found (first_hit l)) evs).
Proof.
  induction 1 as [|f [dyn expected] finders l (g & -> & Hdyn & Hg) _ IH]; intros st.
  - exists []. repeat split. unfold after. simpl. rewrite app_nil_r. now destruct st.
  - simpl in Hdyn, Hg. subst dyn.
    destruct (Hg (after st false [EvCall (dyn_type g) pkg])) as (evs & K & E).
    rewrite after_after in E.
    pose proof (lookup_no_calls _ K) as Hcalls.
    assert (forallb is_search evs = true) as K'.
    { rewrite forallb_forall in *. auto using lookup_is_search. }
    destruct expected as [hit|]; simpl in E.
    + exists ([EvCall (dyn_type g) pkg] ++ evs). repeat split.
      * simpl. exact K'.
      * simpl. now rewrite Hcalls.
      * apply find_hit_head. rewrite invoke_run. exact E.
    + destruct (IH (after st false ([EvCall (dyn_type g) pkg] ++ evs)))
        as (evs' & K2 & C2 & E2).
      rewrite after_after in E2.
      exists (([EvCall (dyn_type g) pkg] ++ evs) ++ evs'). repeat split.
      * rewrite forallb_app. simpl. now rewrite K', K2.
      * rewrite calls_app. simpl. now rewrite Hcalls, C2.
      * rewrite (find_miss_head g finders pkg st
                   (after st false ([EvCall (dyn_type g) pkg] ++ evs)));
          [exact E2|].
        rewrite invoke_run. exact E.
Qed.

Section Chain.

Variable env : Env.

Lemma finders_of_strategies i pkg :
  Forall2 (implements pkg) (finders_of env i) (strategies env i pkg).
Proof.
  unfold finders_of, strategies.
  destruct (stdlibZip i) as [z|], (mapped i) as [ma|],
           (stdlib i) as [sa|], (unmapped i) as [ua|]; simpl;
    repeat constructor;
    (eexists; split; [reflexivity|]; split; [reflexivity|]; simpl;
     first [ apply zipReader_findAndOpen_computes
           | apply mappedArchives_findAndOpen_computes
           | apply stdlibArchives_findAndOpen_computes
           | apply unmappedArchives_findAndOpen_computes ]).
Qed.

(** The chain is the configured strategies in the order bundle, mapped,
    standard library, unmapped. *)
Lemma finders_of_order i :
  finders_of env i =
  (match stdlibZip i with Some z => [Some (zipReader_finder z)] | None => [] end)
  ++ (match mapped i with Some a => [Some (mappedArchives_finder env a)] | None => [] end)
  ++ (match stdlib i with Some a => [Some (stdlibArchives_finder env a)] | None => [] end)
  ++ (match unmapped i with Some a => [Some (unmappedArchives_finder env a)] | None => [] end).
Proof.
  unfold finders_of.
  now destruct (stdlibZip i), (mapped i), (stdlib i), (unmapped i).
Qed.

Lemma Import_cached i importPath pkg st :
  cached i importPath = Some pkg -> Import env i importPath st = (Ok pkg, i, st).
Proof.
  unfold cached, Import. destruct (imports i !! importPath) as [p|]; [|discriminate].
  destruct (Complete p); [|discriminate]. now intros [= ->].
Qed.

Lemma Import_uncached i importPath :
  cached i importPath = None -> Import env i importPath = resolve env i importPath.
Proof.
  unfold cached, Import. destruct (imports i !! importPath) as [p|]; [|reflexivity].
  now destruct (Complete p).
Qed.

Lemma decode_run i importPath file st :
  decode env i importPath file st =
  (fst (decoded env i importPath file), after st false (snd (decoded env i importPath file))).
Proof.
  unfold decode, decoded, bind, emit, Close, ret, after. simpl.
  destruct (gcexportdata_NewReader env file) as [r|err]; simpl.
  - destruct (gcexportdata_Read env r (imports i) importPath) as [m' res]. simpl.
    now rewrite <- !app_assoc.
  - now rewrite <- !app_assoc.
Qed.

Lemma decoded_closes_once i importPath file :
  closes (rc_fd file) (snd (decoded env i importPath file)) = 1.
Proof.
  unfold decoded. destruct (gcexportdata_NewReader env file) as [r|err].
  - destruct (gcexportdata_Read env r (imports i) importPath). simpl.
    now rewrite Nat.eqb_refl.
  - simpl. now rewrite Nat.eqb_refl.
Qed.

(** [resolve] in one equation: the search, then either the not-found error
    or the decoding of the first stream on offer. *)
Lemma resolve_run i importPath st :
  exists evs,
    forallb is_search evs = true /\
    calls evs = queried (strategies env i importPath) /\
    find (finders_of env i) importPath st =
      (stream_at st <$> first_hit (strategies env i importPath),
       after st (found (first_hit (strategies env i importPath))) evs) /\
    resolve env i importPath st =
      match first_hit (strategies env i importPath) with
      | None => (Err (ErrPackageNotFound importPath), i, after st false evs)
      | Some hit => decode env i importPath (stream_at st hit) (after st true evs)
      end.
Proof.
  destruct (find_chain importPath _ _ (finders_of_strategies i importPath) st)
    as (evs & K & C & E).
  exists evs. repeat split; try assumption.
  unfold resolve, bind. rewrite E.
  now destruct (first_hit (strategies env i importPath)).
Qed.

End Chain.

(** ** The cache *)

Section Cache.

Variable env : Env.

Lemma first_hit_app_Some {X} (l1 l2 : list (string * option X)) x :
  first_hit l1 = Some x ->
  first_hit (l1 ++ l2) = Some x /\ queried (l1 ++ l2) = queried l1.
Proof.
  induction l1 as [|[dyn [y|]] l1 IH]; simpl; intros H.
  - discriminate.
  - now split.
  - destruct (IH H) as [-> ->]. now split.
Qed.

Lemma first_hit_app_None {X} (l1 l2 : list (string * option X)) :
  first_hit l1 = None ->
  first_hit (l1 ++ l2) = first_hit l2 /\ queried (l1 ++ l2) = map fst l1 ++ queried l2.
Proof.
  induction l1 as [|[dyn [y|]] l1 IH]; simpl; intros H.
  - now split.
  - discriminate.
  - destruct (IH H) as [-> ->]. now split.
Qed.

Lemma strategies_split i pkg :
  strategies env i pkg =
  exact_strategies env i pkg
  ++ (match stdlib i with Some a => [("*stdlibArchives", stdlib_lookup env a pkg)] | None => [] end)
  ++ (match unmapped i with Some a => [("*unmappedArchives", unmapped_lookup env a pkg)] | None => [] end).
Proof. unfold strategies, exact_strategies. now rewrite <- app_assoc. Qed.

Lemma queried_exact i pkg dyn :
  In dyn (queried (exact_strategies env i pkg)) ->
  dyn = "*zipReader" \/ dyn = "*mappedArchives".
Proof.
  unfold exact_strategies.
  destruct (stdlibZip i) as [z|], (mapped i) as [a|]; simpl;
    repeat match goal with
           | |- context [zip_lookup ?z ?p] => destruct (zip_lookup z p)
           | |- context [mapped_lookup ?e ?a ?p] => destruct (mapped_lookup e a p)
           end; simpl; intuition.
Qed.

(** C1, as the code has it. When the cache does not satisfy an import
    path, [Import] searches the configured strategies in the order bundle,
    mapped archives, standard-library archives, unmapped archives; and when
    one of the two exact-match stores holds the path with an entry that
    opens, the stream of the first such store is the one [Import] decodes,
    whatever the suffix-match stores hold: neither suffix-match strategy is
    even called. *)
Theorem Import_exact_before_suffix (i : Importer) (importPath : string) (st : State) :
  cached i importPath = None ->
  Import env i importPath st = resolve env i importPath st
  /\ finders_of env i =
       (match stdlibZip i with Some z => [Some (zipReader_finder z)] | None => [] end)
       ++ (match mapped i with Some a => [Some (mappedArchives_finder env a)] | None => [] end)
       ++ (match stdlib i with Some a => [Some (stdlibArchives_finder env a)] | None => [] end)
       ++ (match unmapped i with Some a => [Some (unmappedArchives_finder env a)] | None => [] end)
  /\ forall hit,
       first_hit (exact_strategies env i importPath) = Some hit ->
       exists evs,
         Import env i importPath st =
           decode env i importPath (stream_at st hit) (after st true evs)
         /\ forallb is_search evs = true
         /\ calls evs = queried (exact_strategies env i importPath)
         /\ ~ In "*stdlibArchives" (calls evs)
         /\ ~ In "*unmappedArchives" (calls evs).
Proof.
  intros Hmiss. rewrite (Import_uncached env i importPath Hmiss).
  split; [reflexivity|]. split; [apply finders_of_order|].
  intros hit Hhit.
  destruct (resolve_run env i importPath st) as (evs & K & C & _ & E).
  rewrite strategies_split in C, E.
  destruct (first_hit_app_Some _
              ((match stdlib i with
                | Some a => [("*stdlibArchives", stdlib_lookup env a importPath)]
                | None => []
                end)
               ++ (match unmapped i with
                   | Some a => [("*unmappedArchives", unmapped_lookup env a importPath)]
                   | None => []
                   end)) _ Hhit) as [Hfirst Hq].
  rewrite Hfirst in E. rewrite Hq in C.
  exists evs. repeat split; try assumption.
  - rewrite C. intros [H|H]%queried_exact; discriminate H.
  - rewrite C. intros [H|H]%queried_exact; discriminate H.
Qed.


Lemma unsafe_only_lookup (importPath : string) :
  importPath <> "unsafe" ->
  ({[ "unsafe" := types_Unsafe ]} : gmap string Package) !! importPath = None.
Proof. intros Hne. apply lookup_singleton_ne. congruence. Qed.

Lemma New_cached_other ctxt ua ma sa z importPath :
  importPath <> "unsafe" -> cached (New ctxt ua ma sa z) importPath = None.
Proof.
  intros Hne. unfold cached, New. simpl. now rewrite unsafe_only_lookup.
Qed.

Lemma New_cached_unsafe ctxt ua ma sa z :
  cached (New ctxt ua ma sa z) "unsafe" = Some types_Unsafe.
Proof. unfold cached, New. simpl. now rewrite lookup_singleton_eq. Qed.


(** C3. Without a complete cache entry, and with every configured strategy
    reporting absent, [Import] returns the not-found error that carries the
    import path and no package. This is so for every path but [unsafe] on
    an importer built with no strategy, and on one built from empty
    lists. *)
Theorem Import_not_found (i : Importer) (importPath : string) (st : State) :
  (forall st',
      cached i importPath = None ->
      find (finders_of env i) importPath st = (None, st') ->
      Import env i importPath st = (Err (ErrPackageNotFound importPath), i, st'))
  /\
  (forall ctxt,
      importPath <> "unsafe" ->
      Import env (New ctxt None None None None) importPath st =
        (Err (ErrPackageNotFound importPath), New ctxt None None None None, st))
  /\
  (forall ctxt,
      importPath <> "unsafe" ->
      exists i0 evs,
        NewFromZips env ctxt [] [] [] [] st = (Ok i0, st) /\
        forallb is_search evs = true /\
        Import env i0 importPath st =
          (Err (ErrPackageNotFound importPath), i0, after st false evs)).
Proof.
  split; [|split].
  - intros st' Hmiss Hfind. rewrite (Import_uncached env _ _ Hmiss).
    unfold resolve, bind. now rewrite Hfind.
  - intros ctxt Hne.
    rewrite (Import_uncached env _ _ (New_cached_other ctxt _ _ _ _ _ Hne)).
    reflexivity.
  - intros ctxt Hne.
    set (i0 := New ctxt (Some {| ua_archs := [] |}) (Some {| pkgs := ∅ |})
                   (Some {| sa_ctxt := ctxt; sa_archs := [] |}) None).
    assert (cached i0 importPath = None) as Hmiss
      by now apply New_cached_other.
    destruct (resolve_run env i0 importPath st) as (evs & K & _ & _ & E).
    exists i0, evs. split; [reflexivity|]. split; [exact K|].
    rewrite (Import_uncached env _ _ Hmiss), E.
    unfold strategies, mapped_lookup. simpl.
    now rewrite lookup_empty.
Qed.

(** C4. An importer that comes out of [New], or out of a [NewFromZips] that
    succeeds, holds [unsafe] in its cache, the entry is complete, and
    [Import] of [unsafe] returns it with the state untouched, whichever
    strategies are configured, none included. *)
Theorem unsafe_preseeded :
  (forall ctxt ua ma sa z st,
      let i := New ctxt ua ma sa z in
      imports i !! "unsafe" = Some types_Unsafe /\
      Complete types_Unsafe = true /\
      Import env i "unsafe" st = (Ok types_Unsafe, i, st))
  /\
  (forall ctxt unmappedArchs mappedArchs stdlibArchs stdlibZips st0 i st1 st,
      NewFromZips env ctxt unmappedArchs mappedArchs stdlibArchs stdlibZips st0
        = (Ok i, st1) ->
      imports i !! "unsafe" = Some types_Unsafe /\
      Import env i "unsafe" st = (Ok types_Unsafe, i, st)).
Proof.
  split.
  - intros ctxt ua ma sa z st i. split; [|split].
    + apply lookup_singleton_eq.
    + reflexivity.
    + apply Import_cached, New_cached_unsafe.
  - intros ctxt ua ma sa zips st0 i st1 st H.
    unfold NewFromZips, bind in H.
    destruct (pickStdlibZip env _ zips st0) as [[z|e] st2]; [|discriminate H].
    destruct (fillMapped ma ∅) as [m|e]; [|discriminate H].
    injection H as <- _. split.
    + apply lookup_singleton_eq.
    + apply Import_cached, New_cached_unsafe.
Qed.

End Cache.

(** ** Construction *)

Section Construction.

Variable env : Env.

Lemma one_separator_Split archive :
  one_separator archive = true <->
  exists name file, GoStrings.Split archive ":" = [name; file].
Proof.
  unfold one_separator. rewrite Nat.eqb_eq.
  pose proof (GoStringsFacts.Split_length archive ":") as L.
  split.
  - intros H. rewrite H in L.
    destruct (GoStrings.Split archive ":") as [|name [|file [|x l]]];
      try discriminate L. eauto.
  - intros (name & file & E). rewrite E in L. simpl in L. lia.
Qed.

Lemma fillMapped_good archive rest m :
  one_separator archive = true ->
  exists name file,
    GoStrings.Split archive ":" = [name; file] /\
    fillMapped (archive :: rest) m = fillMapped rest (<[name := file]> m).
Proof.
  intros (name & file & E)%one_separator_Split.
  exists name, file. split; [exact E|]. simpl. now rewrite E.
Qed.

Lemma fillMapped_bad archive rest m :
  one_separator archive = false ->
  fillMapped (archive :: rest) m =
    Err (ErrNotImportPathFile (GoStrings.Split archive ":")).
Proof.
  intros Hbad. simpl.
  destruct (GoStrings.Split archive ":") as [|name [|file [|x l]]] eqn:E;
    try reflexivity.
  assert (one_separator archive = true) as Hgood
    by (apply one_separator_Split; eauto).
  congruence.
Qed.

Lemma fillMapped_all_good mappedArchs : forall m,
  forallb one_separator mappedArchs = true ->
  exists m', fillMapped mappedArchs m = Ok m'.
Proof.
  induction mappedArchs as [|archive rest IH]; intros m H.
  - now exists m.
  - simpl in H. apply andb_prop in H as [Ha Hrest].
    destruct (fillMapped_good archive rest m Ha) as (name & file & _ & ->).
    now apply IH.
Qed.

Lemma fillMapped_first_bad good bad rest : forall m,
  forallb one_separator good = true ->
  one_separator bad = false ->
  fillMapped (good ++ bad :: rest) m =
    Err (ErrNotImportPathFile (GoStrings.Split bad ":")).
Proof.
  induction good as [|archive good IH]; intros m Hgood Hbad.
  - now apply fillMapped_bad.
  - simpl in Hgood. apply andb_prop in Hgood as [Ha Hgood].
    destruct (fillMapped_good archive (good ++ bad :: rest) m Ha)
      as (name & file & _ & E).
    simpl app. rewrite E. now apply IH.
Qed.

Lemma fillMapped_some_bad mappedArchs : forall m,
  existsb (fun archive => negb (one_separator archive)) mappedArchs = true ->
  exists e, fillMapped mappedArchs m = Err e.
Proof.
  induction mappedArchs as [|archive rest IH]; intros m H; [discriminate H|].
  destruct (one_separator archive) eqn:Ha.
  - destruct (fillMapped_good archive rest m Ha) as (name & file & _ & ->).
    simpl in H. rewrite Ha in H. now apply IH.
  - rewrite fillMapped_bad by assumption. eauto.
Qed.

Lemma fillMapped_Err_inv mappedArchs : forall m e,
  fillMapped mappedArchs m = Err e ->
  exists archive,
    In archive mappedArchs /\ one_separator archive = false /\
    e = ErrNotImportPathFile (GoStrings.Split archive ":").
Proof.
  induction mappedArchs as [|archive rest IH]; intros m e H; [discriminate H|].
  destruct (one_separator archive) eqn:Ha.
  - destruct (fillMapped_good archive rest m Ha) as (name & file & _ & E).
    rewrite E in H. destruct (IH _ _ H) as (a & Hin & Hbad & ->).
    exists a. repeat split; [now right | exact Hbad].
  - rewrite fillMapped_bad in H by assumption. injection H as <-.
    exists archive. repeat split; [now left | exact Ha].
Qed.

Lemma pickStdlibZip_Err_inv pattern stdlibZips : forall st e st',
  pickStdlibZip env pattern stdlibZips st = (Err e, st') ->
  exists dir, In dir stdlibZips /\ zip_OpenReader env dir = Err e.
Proof.
  induction stdlibZips as [|dir rest IH]; intros st e st' H; [discriminate H|].
  simpl in H.
  destruct (filepath_Match env pattern (filepath_Base env dir)) as [[|]|err].
  - destruct (zip_OpenReader env dir) as [z|err] eqn:Hz; [discriminate H|].
    injection H as <- _. exists dir. split; [now left | exact Hz].
  - destruct (IH _ _ _ H) as (d & Hin & Hd). exists d. split; [now right | exact Hd].
  - unfold bind in H. simpl in H.
    destruct (IH _ _ _ H) as (d & Hin & Hd). exists d. split; [now right | exact Hd].
Qed.

Lemma NewFromZips_run ctxt unmappedArchs mappedArchs stdlibArchs stdlibZips st :
  NewFromZips env ctxt unmappedArchs mappedArchs stdlibArchs stdlibZips st =
  match pickStdlibZip env (wantPattern ctxt) stdlibZips st with
  | (Err err, st') => (Err err, st')
  | (Ok z, st') =>
      match fillMapped mappedArchs ∅ with
      | Err err => (Err err, st')
      | Ok m =>
          (Ok (New ctxt (Some {| ua_archs := unmappedArchs |})
                   (Some {| pkgs := m |})
                   (Some {| sa_ctxt := ctxt; sa_archs := stdlibArchs |}) z),
           st')
      end
  end.
Proof.
  unfold NewFromZips, wantPattern, bind.
  destruct (pickStdlibZip env _ stdlibZips st) as [[z|err] st']; [|reflexivity].
  now destruct (fillMapped mappedArchs ∅).
Qed.

(** C5, as the code has it. A mapped-archive list with an entry that does
    not hold the separator exactly once makes [NewFromZips] fail, with no
    importer. When the choice of the bundle did not fail before, the error
    is the one of the first such entry and carries the pieces the entry
    splits into, from which the entry is read back; and when every entry
    holds the separator exactly once and the choice of the bundle does not
    fail, [NewFromZips] succeeds. *)
Theorem NewFromZips_mapped_entries (ctxt : Context)
    (unmappedArchs mappedArchs stdlibArchs stdlibZips : list string) (st : State) :
  (existsb (fun archive => negb (one_separator archive)) mappedArchs = true ->
   exists e st',
     NewFromZips env ctxt unmappedArchs mappedArchs stdlibArchs stdlibZips st
       = (Err e, st'))
  /\
  (forall z st',
      pickStdlibZip env (wantPattern ctxt) stdlibZips st = (Ok z, st') ->
      (forall good bad rest,
          mappedArchs = good ++ bad :: rest ->
          forallb one_separator good = true ->
          one_separator bad = false ->
          NewFromZips env ctxt unmappedArchs mappedArchs stdlibArchs stdlibZips st
            = (Err (ErrNotImportPathFile (GoStrings.Split bad ":")), st')
          /\ GoStrings.Join (GoStrings.Split bad ":") ":" = bad)
      /\
      (forallb one_separator mappedArchs = true ->
       exists m,
         fillMapped mappedArchs ∅ = Ok m /\
         NewFromZips env ctxt unmappedArchs mappedArchs stdlibArchs stdlibZips st
           = (Ok (New ctxt (Some {| ua_archs := unmappedArchs |})
                      (Some {| pkgs := m |})
                      (Some {| sa_ctxt := ctxt; sa_archs := stdlibArchs |}) z),
              st'))).
Proof.
  split.
  - intros Hbad. rewrite NewFromZips_run.
    destruct (pickStdlibZip env (wantPattern ctxt) stdlibZips st) as [[z|err] st'];
      [|eauto].
    destruct (fillMapped_some_bad mappedArchs ∅ Hbad) as (e & ->). eauto.
  - intros z st' Hpick. rewrite NewFromZips_run, Hpick. split.
    + intros good bad rest -> Hgood Hbad.
      rewrite fillMapped_first_bad by assumption.
      split; [reflexivity | apply GoStringsFacts.Join_Split].
    + intros Hgood.
      destruct (fillMapped_all_good mappedArchs ∅ Hgood) as (m & ->). eauto.
Qed.

End Construction.

(** ** Precedence among the suffix-match strategies, stream lifetime,
       misses and failed opens *)

Section Resolution.

Variable env : Env.

(** C6, as the code has it. For an import path that the cache does not
    satisfy and for which no exact-match store offers a stream, when the
    standard-library strategy finds an archive that opens, that stream is
    the one [Import] decodes, whatever the unmapped archives hold: the
    unmapped strategy is not called. *)
Theorem stdlib_before_unmapped (i : Importer) (importPath : string) (st : State)
    (sa : stdlibArchives) (hit : Source * string) :
  cached i importPath = None ->
  first_hit (exact_strategies env i importPath) = None ->
  stdlib i = Some sa ->
  stdlib_lookup env sa importPath = Some hit ->
  exists evs,
    Import env i importPath st =
      decode env i importPath (stream_at st hit) (after st true evs)
    /\ forallb is_search evs = true
    /\ calls evs =
         map fst (exact_strategies env i importPath) ++ ["*stdlibArchives"]
    /\ ~ In "*unmappedArchives" (calls evs).
Proof.
  intros Hmiss Hexact Hsa Hhit.
  rewrite (Import_uncached env i importPath Hmiss).
  destruct (resolve_run env i importPath st) as (evs & K & C & _ & E).
  rewrite strategies_split, Hsa in C, E.
  destruct (first_hit_app_None _
              ([("*stdlibArchives", stdlib_lookup env sa importPath)]
               ++ (match unmapped i with
                   | Some a => [("*unmappedArchives", unmapped_lookup env a importPath)]
                   | None => []
                   end)) Hexact) as [Hfirst Hq].
  rewrite Hfirst in E. rewrite Hq in C. simpl in E, C. rewrite Hhit in E, C.
  exists evs. repeat split; try assumption.
  rewrite C. intros [Hin|[H|[]]]%in_app_or; [|discriminate H].
  unfold exact_strategies in Hin.
  destruct (stdlibZip i), (mapped i); simpl in Hin;
    intuition discriminate.
Qed.

Lemma last_after_search {A} (l : list A) x l' d :
  List.last (l ++ x :: l') d = List.last (x :: l') d.
Proof.
  induction l as [|y l IH]; [reflexivity|].
  rewrite <- IH. simpl app.
  destruct (l ++ x :: l') eqn:E; [|reflexivity].
  now destruct l.
Qed.

(** C8. When the search of an [Import] finds a stream, the events the call
    adds to the trace close that stream exactly once, as the last thing
    the call does, whether the decoder's reader cannot be built, decoding
    fails or decoding succeeds; the descriptor is one that was free when
    the call began. *)
Theorem Import_closes_stream_once (i : Importer) (importPath : string)
    (st st1 : State) (file : ReadCloser) :
  cached i importPath = None ->
  find (finders_of env i) importPath st = (Some file, st1) ->
  exists out st' evs,
    Import env i importPath st = (out, st')
    /\ trace st' = trace st ++ evs
    /\ closes (rc_fd file) evs = 1
    /\ List.last evs (EvLog "") = EvClose (rc_fd file)
    /\ next_fd st <= rc_fd file
    /\ match gcexportdata_NewReader env file with
       | Err err => fst out = Err err
       | Ok r => fst out = snd (gcexportdata_Read env r (imports i) importPath)
       end.
Proof.
  intros Hmiss Hfind.
  rewrite (Import_uncached env i importPath Hmiss).
  destruct (resolve_run env i importPath st) as (evs & K & _ & E & _).
  rewrite E in Hfind.
  destruct (first_hit (strategies env i importPath)) as [hit|];
    [|discriminate Hfind].
  assert (file = stream_at st hit /\ st1 = after st true evs) as [Hfile ->]
    by (simpl in Hfind; now injection Hfind as <- <-).
  unfold resolve, bind. rewrite E. cbn [fmap option_fmap option_map].
  rewrite decode_run, <- Hfile. clear E.
  exists (fst (decoded env i importPath file)),
         (after (after st true evs) false (snd (decoded env i importPath file))),
         (evs ++ snd (decoded env i importPath file)).
  split; [reflexivity|]. split; [simpl; now rewrite app_assoc|].
  split.
  { rewrite closes_app, (search_no_closes _ _ K), decoded_closes_once. reflexivity. }
  split.
  { unfold decoded.
    destruct (gcexportdata_NewReader env file) as [r|err].
    - destruct (gcexportdata_Read env r (imports i) importPath).
      simpl snd. rewrite last_after_search; reflexivity.
    - simpl snd. rewrite last_after_search; reflexivity. }
  split; [rewrite Hfile; simpl; lia|].
  unfold decoded.
  destruct (gcexportdata_NewReader env file) as [r|err]; [|reflexivity].
  now destruct (gcexportdata_Read env r (imports i) importPath).
Qed.

Lemma unmappedArchives_loop_skip filename rest name st e :
  GoStrings.HasSuffix filename name = true ->
  os_Open env filename = Err e ->
  unmappedArchives_loop env (filename :: rest) name st =
    unmappedArchives_loop env rest name (after st false [EvOpen filename None]).
Proof.
  intros Hs Ho. simpl. rewrite Hs. unfold bind. now rewrite Open_run, Ho.
Qed.


Lemma computes_None_run kind m st :
  computes kind m None ->
  exists evs, forallb kind evs = true /\ m st = (None, after st false evs).
Proof. intros H. destruct (H st) as (evs & K & E). eauto. Qed.

(** C9. A lookup is a function that returns a stream or absent, never an
    error: for each of the four strategies, when the backing store holds
    nothing for the import path, the lookup returns absent. The errors
    there are come out of construction: a bundle that does not open, or a
    mapped-archive entry that is not well formed. *)
Theorem findAndOpen_miss_is_absent (pkg : string) (st : State) :
  (forall z,
      z_files z !! zip_key (z_ctxt z) pkg = None ->
      zipReader_findAndOpen z pkg st = (None, st))
  /\
  (forall a,
      pkgs a !! pkg = None ->
      mappedArchives_findAndOpen env a pkg st = (None, st))
  /\
  (forall a,
      first_open env
        (stdlib_candidates env (sa_archs a) (stdlib_key (sa_ctxt a) pkg)) = None ->
      exists evs,
        forallb is_lookup evs = true /\
        stdlibArchives_findAndOpen env a pkg st = (None, after st false evs))
  /\
  (forall a,
      unmapped_candidates (ua_archs a) (unmapped_key pkg) = [] ->
      unmappedArchives_findAndOpen env a pkg st = (None, st))
  /\
  (forall ctxt unmappedArchs mappedArchs stdlibArchs stdlibZips st0 e st1,
      NewFromZips env ctxt unmappedArchs mappedArchs stdlibArchs stdlibZips st0
        = (Err e, st1) ->
      (exists dir, In dir stdlibZips /\ zip_OpenReader env dir = Err e)
      \/
      (exists archive,
          In archive mappedArchs /\ one_separator archive = false /\
          e = ErrNotImportPathFile (GoStrings.Split archive ":"))).
Proof.
  repeat split.
  - intros z Hz. unfold zipReader_findAndOpen. unfold zip_key in Hz. now rewrite Hz.
  - intros a Ha. unfold mappedArchives_findAndOpen. now rewrite Ha.
  - intros a Ha. apply computes_None_run.
    pose proof (stdlibArchives_findAndOpen_computes env a pkg) as H.
    unfold stdlib_lookup in H. now rewrite Ha in H.
  - intros a Ha.
    unfold unmappedArchives_findAndOpen. fold (unmapped_key pkg).
    revert Ha. generalize (unmapped_key pkg) as name.
    induction (ua_archs a) as [|filename rest IH]; intros name Ha; [reflexivity|].
    simpl in *. destruct (GoStrings.HasSuffix filename name); [discriminate Ha|].
    now apply IH.
  - intros ctxt ua ma sa zips st0 e st1 H. rewrite NewFromZips_run in H.
    destruct (pickStdlibZip env (wantPattern ctxt) zips st0) as [[z|err] st2] eqn:Hp.
    + destruct (fillMapped ma ∅) as [m|err] eqn:Hf; [discriminate H|].
      injection H as <- _. right. eapply fillMapped_Err_inv, Hf.
    + injection H as <- _. left. eapply pickStdlibZip_Err_inv, Hp.
Qed.

Lemma stdlibArchives_loop_attempts filename rest name st :
  first_open env (stdlib_candidates env [filename] name) = None ->
  stdlibArchives_loop env (filename :: rest) name st =
    stdlibArchives_loop env rest name
      (after st false (stdlib_attempts env filename name)).
Proof.
  unfold stdlib_attempts.
  cbn [stdlib_candidates stdlibArchives_loop]. rewrite app_nil_r.
  unfold bind at 1 2. rewrite Stat_run.
  destruct (os_Stat env filename) as [[[|]]|e]; cbn [IsDir fst snd app].
  - unfold bind at 1. rewrite Open_run. cbn [first_open].
    destruct (os_Open env (filepath_Join env filename name)) as [d|e] eqn:Hj;
      [discriminate|].
    unfold ret at 1. cbn [fst snd].
    destruct (GoStrings.HasSuffix filename name); cbn [first_open app].
    + unfold bind. rewrite Open_run.
      destruct (os_Open env filename) as [d|e']; [discriminate|]. intros _.
      now rewrite !after_after.
    + intros _. now rewrite !after_after.
  - unfold ret at 1.
    destruct (GoStrings.HasSuffix filename name); cbn [first_open app].
    + unfold bind. rewrite Open_run.
      destruct (os_Open env filename) as [d|e']; [discriminate|]. intros _.
      now rewrite !after_after.
    + intros _. reflexivity.
  - unfold ret at 1.
    destruct (GoStrings.HasSuffix filename name); cbn [first_open app].
    + unfold bind. rewrite Open_run.
      destruct (os_Open env filename) as [d|e']; [discriminate|]. intros _.
      now rewrite !after_after.
    + intros _. reflexivity.
Qed.

(** A configured path that is no directory, ends in the key and does not
    open: the round stats it, fails to open it, and the loop goes on. *)
Lemma stdlibArchives_loop_failed_file filename rest name st e :
  (forall fi, os_Stat env filename = Ok fi -> IsDir fi = false) ->
  GoStrings.HasSuffix filename name = true ->
  os_Open env filename = Err e ->
  stdlibArchives_loop env (filename :: rest) name st =
    stdlibArchives_loop env rest name
      (after st false [EvStat filename; EvOpen filename None]).
Proof.
  intros Hfile Hsuf Hopen.
  assert (match os_Stat env filename with
          | Ok fi => if IsDir fi then [filepath_Join env filename name] else []
          | Err _ => []
          end = []) as Hdir.
  { destruct (os_Stat env filename) as [fi|e'] eqn:Hs; [|reflexivity].
    now rewrite (Hfile fi eq_refl). }
  rewrite stdlibArchives_loop_attempts.
  - unfold stdlib_attempts. rewrite Hsuf.
    destruct (os_Stat env filename) as [fi|e'] eqn:Hs; [|reflexivity].
    now rewrite (Hfile fi eq_refl).
  - cbn [stdlib_candidates]. rewrite Hdir, Hsuf. cbn [app first_open].
    now rewrite Hopen.
Qed.

(** The same path followed by one that is no directory, ends in the key and
    opens: the second is the stream returned. *)
Lemma stdlibArchives_loop_next filename next rest name st e data :
  (forall fi, os_Stat env filename = Ok fi -> IsDir fi = false) ->
  GoStrings.HasSuffix filename name = true ->
  os_Open env filename = Err e ->
  (forall fi, os_Stat env next = Ok fi -> IsDir fi = false) ->
  GoStrings.HasSuffix next name = true ->
  os_Open env next = Ok data ->
  stdlibArchives_loop env (filename :: next :: rest) name st =
    (Some {| rc_fd := next_fd st; rc_src := FromFile next; rc_data := data |},
     after st true [EvStat filename; EvOpen filename None;
                    EvStat next; EvOpen next (Some (next_fd st))]).
Proof.
  intros Hfile Hsuf Hopen Hnfile Hnsuf Hnopen.
  rewrite (stdlibArchives_loop_failed_file _ _ _ _ _ Hfile Hsuf Hopen).
  cbn [stdlibArchives_loop]. unfold bind at 1 2. rewrite Stat_run.
  cbn [fst snd].
  assert ((match os_Stat env next with
           | Ok fi =>
               if IsDir fi
               then bind (Open env (filepath_Join env next name))
                      (fun f => match f with
                                | Ok f => ret (Some f)
                                | Err _ => ret None
                                end)
               else ret None
           | Err _ => ret None
           end) = ret None) as ->.
  { destruct (os_Stat env next) as [fi|e'] eqn:Hs; [|reflexivity].
    now rewrite (Hnfile fi eq_refl). }
  unfold ret at 1. rewrite Hnsuf. unfold bind. rewrite Open_run, Hnopen.
  unfold ret. rewrite !after_after. reflexivity.
Qed.

(** C10. When the store of a strategy maps the import path to a file and
    that file does not open, the strategy reports absent: the bundle and
    the mapped archives return absent, the standard-library and the
    unmapped archives go on with the configured paths that follow, [find]
    goes on with the strategies that follow, and when no stream is found
    [Import] returns the not-found error, which holds the import path and
    nothing else. Each failed attempt is in the trace: the round of the
    standard-library loop for a path that does not open leaves its stat
    and its failed opens and hands over to the next configured path, whose
    stream is returned when it opens. *)
Theorem failed_open_is_absent (pkg : string) (st : State) :
  (forall z f e,
      z_files z !! zip_key (z_ctxt z) pkg = Some f ->
      zf_Open f = Err e ->
      zipReader_findAndOpen z pkg st =
        (None, after st false [EvZipEntryOpen (Name f) None]))
  /\
  (forall a filename e,
      pkgs a !! pkg = Some filename ->
      os_Open env filename = Err e ->
      mappedArchives_findAndOpen env a pkg st =
        (None, after st false [EvOpen filename None]))
  /\
  (forall filename rest name,
      first_open env (stdlib_candidates env [filename] name) = None ->
      forallb is_lookup (stdlib_attempts env filename name) = true /\
      stdlibArchives_loop env (filename :: rest) name st =
        stdlibArchives_loop env rest name
          (after st false (stdlib_attempts env filename name)))
  /\
  (forall filename rest name e,
      (forall fi, os_Stat env filename = Ok fi -> IsDir fi = false) ->
      GoStrings.HasSuffix filename name = true ->
      os_Open env filename = Err e ->
      stdlibArchives_loop env (filename :: rest) name st =
        stdlibArchives_loop env rest name
          (after st false [EvStat filename; EvOpen filename None]))
  /\
  (forall filename next rest name e data,
      (forall fi, os_Stat env filename = Ok fi -> IsDir fi = false) ->
      GoStrings.HasSuffix filename name = true ->
      os_Open env filename = Err e ->
      (forall fi, os_Stat env next = Ok fi -> IsDir fi = false) ->
      GoStrings.HasSuffix next name = true ->
      os_Open env next = Ok data ->
      stdlibArchives_loop env (filename :: next :: rest) name st =
        (Some {| rc_fd := next_fd st; rc_src := FromFile next; rc_data := data |},
         after st true [EvStat filename; EvOpen filename None;
                        EvStat next; EvOpen next (Some (next_fd st))]))
  /\
  (forall filename rest name e,
      GoStrings.HasSuffix filename name = true ->
      os_Open env filename = Err e ->
      unmappedArchives_loop env (filename :: rest) name st =
        unmappedArchives_loop env rest name (after st false [EvOpen filename None]))
  /\
  (forall f rest st1,
      invoke f pkg st = (None, st1) ->
      find (Some f :: rest) pkg st = find rest pkg st1)
  /\
  (forall i,
      cached i pkg = None ->
      first_hit (strategies env i pkg) = None ->
      exists evs,
        forallb is_search evs = true /\
        Import env i pkg st = (Err (ErrPackageNotFound pkg), i, after st false evs)).
Proof.
  split; [|split; [|split; [|split; [|split; [|split; [|split]]]]]].
  - intros z f e Hz Hf. unfold zipReader_findAndOpen. unfold zip_key in Hz.
    rewrite Hz. unfold bind. now rewrite zip_File_Open_run, Hf.
  - intros a filename e Ha Hf. unfold mappedArchives_findAndOpen.
    rewrite Ha. unfold bind. now rewrite Open_run, Hf.
  - intros filename rest name Hnone. split.
    + unfold stdlib_attempts.
      destruct (os_Stat env filename) as [[[|]]|e];
        destruct (GoStrings.HasSuffix filename name); reflexivity.
    + now apply stdlibArchives_loop_attempts.
  - intros filename rest name e. apply stdlibArchives_loop_failed_file.
  - intros filename next rest name e data. apply stdlibArchives_loop_next.
  - intros filename rest name e Hs Ho. eapply unmappedArchives_loop_skip; eauto.
  - intros f rest st1 H. now apply find_miss_head.
  - intros i Hmiss Hnone.
    destruct (resolve_run env i pkg st) as (evs & K & _ & _ & E).
    exists evs. split; [exact K|].
    rewrite (Import_uncached env i pkg Hmiss), E. now rewrite Hnone.
Qed.

End Resolution.

(** ** The theorems at work on the sample world *)

Section SampleRuns.

Import Sample.


(** [find] on the chain of [suffix_only]: a hit at the second strategy for
    [errors], a miss of all three for [os]. *)
Lemma find_first_match_witness :
  find (finders_of world suffix_only) "errors" st0 =
    (Some {| rc_fd := 3;
             rc_src := FromFile "/std/linux_amd64/errors.a";
             rc_data := "stdlib errors" |},
     {| next_fd := 4;
        trace := [EvCall "*mappedArchives" "errors";
                  EvCall "*stdlibArchives" "errors";
                  EvStat "/std/linux_amd64/errors.a";
                  EvOpen "/std/linux_amd64/errors.a" (Some 3)] |})
  /\ find (finders_of world suffix_only) "os" st0 =
       (None, snd (find (finders_of world suffix_only) "os" st0)).
Proof.
  destruct (find_first_match (finders_of world suffix_only) "errors" st0) as [Hhit _].
  destruct (find_first_match (finders_of world suffix_only) "os" st0) as [_ Hmiss].
  split.
  - apply Hhit.
    exists [Some (mappedArchives_finder world {| pkgs := ∅ |})],
           (stdlibArchives_finder world
              {| sa_ctxt := ctxt;
                 sa_archs := ["/std/linux_amd64/errors.a"; "/goroot/pkg"] |}),
           [Some (unmappedArchives_finder world
                    {| ua_archs := ["/third_party/golang.org/x/crypto/errors.x"] |})],
           {| next_fd := 3; trace := [EvCall "*mappedArchives" "errors"] |}.
    split; [reflexivity|]. split; [|vm_compute; reflexivity].
    eapply all_miss_call; [vm_compute; reflexivity | apply all_miss_nil].
  - apply Hmiss, find_None_inv. vm_compute. reflexivity.
Defined.

(** [errors] is in the mapped archives, in the standard-library archives
    and in the unmapped archives of [with_mapped]: the mapped archive is the
    one decoded. *)
Lemma Import_exact_before_suffix_witness :
  cached with_mapped "errors" = None /\
  first_hit (exact_strategies world with_mapped "errors")
    = Some (FromFile "/ext/errors.a", "mapped errors") /\
  exists evs,
    Import world with_mapped "errors" st0 =
      decode world with_mapped "errors"
        (stream_at st0 (FromFile "/ext/errors.a", "mapped errors"))
        (after st0 true evs)
    /\ ~ In "*stdlibArchives" (calls evs)
    /\ ~ In "*unmappedArchives" (calls evs).
Proof.
  assert (cached with_mapped "errors" = None) as Hmiss by (vm_compute; reflexivity).
  assert (first_hit (exact_strategies world with_mapped "errors")
          = Some (FromFile "/ext/errors.a", "mapped errors")) as Hhit
    by (vm_compute; reflexivity).
  split; [exact Hmiss|]. split; [exact Hhit|].
  destruct (Import_exact_before_suffix world with_mapped "errors" st0 Hmiss)
    as (_ & _ & H).
  destruct (H _ Hhit) as (evs & E & _ & _ & N1 & N2).
  exists evs. repeat split; assumption.
Defined.

(** C1 as stated fails. [errors] is in the mapped archives of the first
    importer and in the index of the bundle of the second, and in both it
    is also in the standard-library archives; but the mapped file, and the
    bundle entry, do not open, the exact-match strategy reports absent, and
    [Import] decodes the standard-library archive, which a suffix-match
    strategy found. *)
Lemma exact_entry_that_does_not_open :
  (match mapped mapped_unreadable with
   | Some a => pkgs a !! "errors" = Some "/nowhere/errors.a"
   | None => False
   end
   /\ stdlib mapped_unreadable =
        Some {| sa_ctxt := ctxt;
                sa_archs := ["/std/linux_amd64/errors.a"; "/goroot/pkg"] |}
   /\ GoStrings.HasSuffix "/std/linux_amd64/errors.a" (stdlib_key ctxt "errors") = true
   /\ cached mapped_unreadable "errors" = None
   /\ fst (fst (Import world mapped_unreadable "errors" st0))
      = Ok (decoded_as "errors" "stdlib errors")
   /\ trace (snd (Import world mapped_unreadable "errors" st0))
      = [EvCall "*mappedArchives" "errors";
         EvOpen "/nowhere/errors.a" None;
         EvCall "*stdlibArchives" "errors";
         EvStat "/std/linux_amd64/errors.a";
         EvOpen "/std/linux_amd64/errors.a" (Some 3);
         EvNewReader 3; EvRead "errors"; EvClose 3])
  /\
  (match stdlibZip bundle_unreadable with
   | Some z =>
       z_files z !! zip_key (z_ctxt z) "errors"
       = Some {| Name := "linux_amd64/errors.x";
                 zf_Open := Err (ErrExternal "zip: unsupported compression algorithm") |}
   | None => False
   end
   /\ stdlib bundle_unreadable =
        Some {| sa_ctxt := ctxt;
                sa_archs := ["/std/linux_amd64/errors.a"; "/goroot/pkg"] |}
   /\ cached bundle_unreadable "errors" = None
   /\ fst (fst (Import world bundle_unreadable "errors" st0))
      = Ok (decoded_as "errors" "stdlib errors")
   /\ trace (snd (Import world bundle_unreadable "errors" st0))
      = [EvCall "*zipReader" "errors";
         EvZipEntryOpen "linux_amd64/errors.x" None;
         EvCall "*stdlibArchives" "errors";
         EvStat "/std/linux_amd64/errors.a";
         EvOpen "/std/linux_amd64/errors.a" (Some 3);
         EvNewReader 3; EvRead "errors"; EvClose 3]).
Proof. repeat split; vm_compute; reflexivity. Qed.


(** [os] is in no store of [suffix_only]; [fmt] cannot be found without
    strategies. *)
Lemma Import_not_found_witness :
  Import world suffix_only "os" st0 =
    (Err (ErrPackageNotFound "os"), suffix_only,
     snd (find (finders_of world suffix_only) "os" st0))
  /\ Import world unconfigured "fmt" st0 =
       (Err (ErrPackageNotFound "fmt"), unconfigured, st0)
  /\ exists i0 evs,
       NewFromZips world ctxt [] [] [] [] st0 = (Ok i0, st0) /\
       forallb is_search evs = true /\
       Import world i0 "fmt" st0 =
         (Err (ErrPackageNotFound "fmt"), i0, after st0 false evs).
Proof.
  destruct (Import_not_found world suffix_only "os" st0) as (H1 & _ & _).
  destruct (Import_not_found world unconfigured "fmt" st0) as (_ & H2 & H3).
  split; [|split].
  - apply H1; vm_compute; reflexivity.
  - apply H2. discriminate.
  - apply H3. discriminate.
Defined.

(** [unsafe] on an importer without strategies and on one that
    [NewFromZips] built. *)
Lemma unsafe_preseeded_witness :
  Import world unconfigured "unsafe" st0 = (Ok types_Unsafe, unconfigured, st0)
  /\ match fst built with
     | Ok i => Import world i "unsafe" (snd built) = (Ok types_Unsafe, i, snd built)
     | Err _ => False
     end.
Proof.
  split.
  - apply (proj1 (unsafe_preseeded world) ctxt None None None None st0).
  - destruct built as [[i|e] st1] eqn:E; simpl.
    + apply (proj2 (unsafe_preseeded world) ctxt [] ["errors:/ext/errors.a"] []
               ["/zips/linux_amd64.x.zip"] st0 i st1 st1 E).
    + vm_compute in E. discriminate E.
Defined.

(** C5 as stated fails: every entry of the mapped-archive list holds the
    separator exactly once, yet construction fails, because the bundle that
    matches the pattern does not open; and with a malformed entry in the
    list as well, the error is the bundle's and does not name the entry. *)
Lemma wellformed_entries_construction_fails :
  forallb one_separator ["fmt:/lib/fmt.a"] = true
  /\ fst (NewFromZips world ctxt [] ["fmt:/lib/fmt.a"] []
            ["/zips/linux_amd64_race.x.zip"] st0)
     = Err (ErrExternal "zip: not a valid zip file")
  /\ one_separator "onlyonename" = false
  /\ fst (NewFromZips world ctxt [] ["onlyonename"] []
            ["/zips/linux_amd64_race.x.zip"] st0)
     = Err (ErrExternal "zip: not a valid zip file").
Proof. repeat split; vm_compute; reflexivity. Qed.

(** Construction with a malformed entry after a well-formed one, with an
    entry of two separators, and with well-formed entries only. *)
Lemma NewFromZips_mapped_entries_witness :
  (exists e st',
      NewFromZips world ctxt [] ["fmt:/lib/fmt.a"; "onlyonename"; "a:b:c"] []
        ["/zips/linux_amd64.x.zip"] st0 = (Err e, st'))
  /\ NewFromZips world ctxt [] ["fmt:/lib/fmt.a"; "onlyonename"; "a:b:c"] []
       ["/zips/linux_amd64.x.zip"] st0
     = (Err (ErrNotImportPathFile ["onlyonename"]),
        after st0 false [EvZipOpenReader "/zips/linux_amd64.x.zip" true])
  /\ fst (NewFromZips world ctxt [] ["a:b:c"] [] [] st0)
     = Err (ErrNotImportPathFile ["a"; "b"; "c"])
  /\ exists m,
       fillMapped ["fmt:/lib/fmt.a"; "errors:/ext/errors.a"] ∅ = Ok m /\
       NewFromZips world ctxt [] ["fmt:/lib/fmt.a"; "errors:/ext/errors.a"] []
         ["/zips/linux_amd64.x.zip"] st0
       = (Ok (New ctxt (Some {| ua_archs := [] |}) (Some {| pkgs := m |})
                  (Some {| sa_ctxt := ctxt; sa_archs := [] |}) (Some bundle)),
          after st0 false [EvZipOpenReader "/zips/linux_amd64.x.zip" true]).
Proof.
  destruct (NewFromZips_mapped_entries world ctxt []
              ["fmt:/lib/fmt.a"; "onlyonename"; "a:b:c"] []
              ["/zips/linux_amd64.x.zip"] st0) as [Hfail Hpicked].
  destruct (Hpicked (Some bundle)
              (after st0 false [EvZipOpenReader "/zips/linux_amd64.x.zip" true])
              eq_refl) as [Hbad _].
  destruct (NewFromZips_mapped_entries world ctxt [] ["a:b:c"] [] [] st0)
    as [_ Hnone].
  destruct (Hnone None st0 eq_refl) as [Hbad' _].
  destruct (NewFromZips_mapped_entries world ctxt []
              ["fmt:/lib/fmt.a"; "errors:/ext/errors.a"] []
              ["/zips/linux_amd64.x.zip"] st0) as [_ Hpicked'].
  destruct (Hpicked' (Some bundle)
              (after st0 false [EvZipOpenReader "/zips/linux_amd64.x.zip" true])
              eq_refl) as [_ Hgood].
  split; [|split; [|split]].
  - apply Hfail. reflexivity.
  - apply (Hbad ["fmt:/lib/fmt.a"] "onlyonename" ["a:b:c"]); reflexivity.
  - rewrite (proj1 (Hbad' [] "a:b:c" [] eq_refl eq_refl eq_refl)). reflexivity.
  - apply Hgood. reflexivity.
Defined.

(** C6 as stated fails. In both importers the key of [errors] is the
    suffix of a configured standard-library archive and of a configured
    unmapped archive. In the first, [errors] is in the mapped archives too,
    and [Import] decodes that archive without calling the standard-library
    strategy; in the second, the standard-library archive does not open,
    and [Import] decodes the third-party archive. And once [errors] is in
    the cache, [Import] uses no stream at all. *)
Lemma stdlib_stream_not_always_used :
  (stdlib with_mapped =
     Some {| sa_ctxt := ctxt;
             sa_archs := ["/std/linux_amd64/errors.a"; "/goroot/pkg"] |}
   /\ GoStrings.HasSuffix "/std/linux_amd64/errors.a" (stdlib_key ctxt "errors") = true
   /\ unmapped with_mapped =
        Some {| ua_archs := ["/third_party/golang.org/x/crypto/errors.x"] |}
   /\ GoStrings.HasSuffix "/third_party/golang.org/x/crypto/errors.x"
        (unmapped_key "errors") = true
   /\ cached with_mapped "errors" = None
   /\ fst (fst (Import world with_mapped "errors" st0))
      = Ok (decoded_as "errors" "mapped errors")
   /\ trace (snd (Import world with_mapped "errors" st0))
      = [EvCall "*mappedArchives" "errors";
         EvOpen "/ext/errors.a" (Some 3);
         EvNewReader 3; EvRead "errors"; EvClose 3])
  /\
  (stdlib stdlib_locked =
     Some {| sa_ctxt := ctxt; sa_archs := ["/locked/linux_amd64/errors.a"] |}
   /\ GoStrings.HasSuffix "/locked/linux_amd64/errors.a" (stdlib_key ctxt "errors") = true
   /\ unmapped stdlib_locked =
        Some {| ua_archs := ["/third_party/golang.org/x/crypto/errors.x"] |}
   /\ GoStrings.HasSuffix "/third_party/golang.org/x/crypto/errors.x"
        (unmapped_key "errors") = true
   /\ cached stdlib_locked "errors" = None
   /\ first_hit (exact_strategies world stdlib_locked "errors") = None
   /\ fst (fst (Import world stdlib_locked "errors" st0))
      = Ok (decoded_as "errors" "third-party errors")
   /\ trace (snd (Import world stdlib_locked "errors" st0))
      = [EvCall "*mappedArchives" "errors";
         EvCall "*stdlibArchives" "errors";
         EvStat "/locked/linux_amd64/errors.a";
         EvOpen "/locked/linux_amd64/errors.a" None;
         EvCall "*unmappedArchives" "errors";
         EvOpen "/third_party/golang.org/x/crypto/errors.x" (Some 3);
         EvNewReader 3; EvRead "errors"; EvClose 3])
  /\
  (let r := Import world suffix_only "errors" st0 in
   cached (snd (fst r)) "errors" = Some (decoded_as "errors" "stdlib errors")
   /\ snd (Import world (snd (fst r)) "errors" (snd r)) = snd r).
Proof. repeat split; vm_compute; reflexivity. Qed.

(** [errors] on [suffix_only]: the standard-library archive is decoded and
    the unmapped strategy is not called. *)
Lemma stdlib_before_unmapped_witness :
  exists evs,
    Import world suffix_only "errors" st0 =
      decode world suffix_only "errors"
        (stream_at st0 (FromFile "/std/linux_amd64/errors.a", "stdlib errors"))
        (after st0 true evs)
    /\ forallb is_search evs = true
    /\ calls evs = ["*mappedArchives"; "*stdlibArchives"]
    /\ ~ In "*unmappedArchives" (calls evs).
Proof.
  apply (stdlib_before_unmapped world suffix_only "errors" st0
           {| sa_ctxt := ctxt;
              sa_archs := ["/std/linux_amd64/errors.a"; "/goroot/pkg"] |}
           (FromFile "/std/linux_amd64/errors.a", "stdlib errors")).
  - vm_compute. reflexivity.
  - vm_compute. reflexivity.
  - reflexivity.
  - vm_compute. reflexivity.
Defined.

(** [Import] of [errors] on [suffix_only] closes descriptor 3 once, at the
    end. *)
Lemma Import_closes_stream_once_witness :
  exists out st' evs,
    Import world suffix_only "errors" st0 = (out, st')
    /\ trace st' = trace st0 ++ evs
    /\ closes 3 evs = 1
    /\ List.last evs (EvLog "") = EvClose 3
    /\ next_fd st0 <= 3
    /\ fst out = Ok (decoded_as "errors" "stdlib errors").
Proof.
  apply (Import_closes_stream_once world suffix_only "errors" st0
           (snd (find (finders_of world suffix_only) "errors" st0))
           {| rc_fd := 3;
              rc_src := FromFile "/std/linux_amd64/errors.a";
              rc_data := "stdlib errors" |}).
  - vm_compute. reflexivity.
  - vm_compute. reflexivity.
Defined.

(** The four strategies on [os], which no store holds, and the error of a
    construction whose bundle does not open. *)
Lemma findAndOpen_miss_is_absent_witness :
  zipReader_findAndOpen zipped "os" st0 = (None, st0)
  /\ mappedArchives_findAndOpen world dangling "os" st0 = (None, st0)
  /\ (exists evs,
        forallb is_lookup evs = true /\
        stdlibArchives_findAndOpen world
          {| sa_ctxt := ctxt;
             sa_archs := ["/std/linux_amd64/errors.a"; "/goroot/pkg"] |}
          "os" st0 = (None, after st0 false evs))
  /\ unmappedArchives_findAndOpen world
       {| ua_archs := ["/third_party/golang.org/x/crypto/errors.x"] |} "os" st0
     = (None, st0)
  /\ ((exists dir,
          In dir ["/zips/linux_amd64_race.x.zip"] /\
          zip_OpenReader world dir = Err (ErrExternal "zip: not a valid zip file"))
      \/
      (exists archive,
          In archive ["onlyonename"] /\ one_separator archive = false /\
          ErrExternal "zip: not a valid zip file"
          = ErrNotImportPathFile (GoStrings.Split archive ":"))).
Proof.
  destruct (findAndOpen_miss_is_absent world "os" st0)
    as (Hzip & Hmapped & Hstd & Hun & Hnew).
  split; [|split; [|split; [|split]]].
  - apply Hzip. vm_compute. reflexivity.
  - apply Hmapped. vm_compute. reflexivity.
  - apply Hstd. vm_compute. reflexivity.
  - apply Hun. vm_compute. reflexivity.
  - apply (Hnew ctxt [] ["onlyonename"] [] ["/zips/linux_amd64_race.x.zip"] st0
             (ErrExternal "zip: not a valid zip file")
             (after st0 false [EvZipOpenReader "/zips/linux_amd64_race.x.zip" false])).
    vm_compute. reflexivity.
Defined.

(** A bundle entry, a mapped archive, a standard-library archive and an
    unmapped archive that do not open. *)
Lemma failed_open_is_absent_witness :
  zipReader_findAndOpen zipped "broken" st0 =
    (None, after st0 false [EvZipEntryOpen "linux_amd64/broken.x" None])
  /\ mappedArchives_findAndOpen world dangling "broken" st0 =
       (None, after st0 false [EvOpen "/nowhere/broken.a" None])
  /\ stdlibArchives_loop world
       ["/goroot/pkg"; "/std/linux_amd64/errors.a"]
       "/linux_amd64/errors.a" st0 =
     stdlibArchives_loop world ["/std/linux_amd64/errors.a"]
       "/linux_amd64/errors.a"
       (after st0 false [EvStat "/goroot/pkg";
                         EvOpen "/goroot/pkg/linux_amd64/errors.a" None])
  /\ stdlibArchives_loop world
       ["/locked/linux_amd64/errors.a"; "/std/linux_amd64/errors.a"]
       "/linux_amd64/errors.a" st0 =
     stdlibArchives_loop world ["/std/linux_amd64/errors.a"]
       "/linux_amd64/errors.a"
       (after st0 false [EvStat "/locked/linux_amd64/errors.a";
                         EvOpen "/locked/linux_amd64/errors.a" None])
  /\ stdlibArchives_loop world
       ["/locked/linux_amd64/errors.a"; "/std/linux_amd64/errors.a"]
       "/linux_amd64/errors.a" st0 =
     (Some {| rc_fd := 3; rc_src := FromFile "/std/linux_amd64/errors.a";
              rc_data := "stdlib errors" |},
      after st0 true [EvStat "/locked/linux_amd64/errors.a";
                      EvOpen "/locked/linux_amd64/errors.a" None;
                      EvStat "/std/linux_amd64/errors.a";
                      EvOpen "/std/linux_amd64/errors.a" (Some 3)])
  /\ unmappedArchives_loop world
       ["/lost/errors.x"; "/third_party/golang.org/x/crypto/errors.x"]
       "/errors.x" st0 =
     unmappedArchives_loop world ["/third_party/golang.org/x/crypto/errors.x"]
       "/errors.x" (after st0 false [EvOpen "/lost/errors.x" None])
  /\ find [Some (mappedArchives_finder world dangling);
           Some (zipReader_finder zipped)] "broken" st0 =
     find [Some (zipReader_finder zipped)] "broken"
       (after st0 false [EvCall "*mappedArchives" "broken";
                         EvOpen "/nowhere/broken.a" None])
  /\ exists evs,
       forallb is_search evs = true /\
       Import world
         (New ctxt None (Some dangling) None (Some bundle)) "broken" st0 =
       (Err (ErrPackageNotFound "broken"),
        New ctxt None (Some dangling) None (Some bundle),
        after st0 false evs).
Proof.
  destruct (failed_open_is_absent world "broken" st0)
    as (Hzip & Hmapped & Hstd & Hfile & Hnext & Hun & Hfind & Himport).
  split; [|split; [|split; [|split; [|split; [|split; [|split]]]]]].
  - apply (Hzip zipped
             {| Name := "linux_amd64/broken.x";
                zf_Open := Err (ErrExternal "zip: unsupported compression algorithm") |}
             (ErrExternal "zip: unsupported compression algorithm")).
    + vm_compute. reflexivity.
    + reflexivity.
  - apply (Hmapped dangling "/nowhere/broken.a" no_such_file).
    + vm_compute. reflexivity.
    + reflexivity.
  - apply (Hstd "/goroot/pkg" ["/std/linux_amd64/errors.a"] "/linux_amd64/errors.a").
    vm_compute. reflexivity.
  - apply (Hfile "/locked/linux_amd64/errors.a" ["/std/linux_amd64/errors.a"]
                 "/linux_amd64/errors.a" permission_denied).
    + intros fi [= <-]. reflexivity.
    + reflexivity.
    + reflexivity.
  - apply (Hnext "/locked/linux_amd64/errors.a" "/std/linux_amd64/errors.a" []
                 "/linux_amd64/errors.a" permission_denied "stdlib errors").
    + intros fi [= <-]. reflexivity.
    + reflexivity.
    + reflexivity.
    + intros fi [= <-]. reflexivity.
    + reflexivity.
    + reflexivity.
  - apply (Hun "/lost/errors.x" _ "/errors.x" no_such_file).
    + vm_compute. reflexivity.
    + reflexivity.
  - apply Hfind. vm_compute. reflexivity.
  - apply Himport.
    + vm_compute. reflexivity.
    + vm_compute. reflexivity.
Defined.

End SampleRuns.

(** * Further properties of the package *)

(** ** Prefixes and suffixes *)

Module GoStringsSpec.
Import GoStrings.

Lemma length_append (s1 s2 : string) :
  String.length (s1 +:+ s2) = String.length s1 + String.length s2.
Proof. induction s1 as [|c s1 IH]; simpl; [reflexivity | now rewrite IH]. Qed.

Lemma substring_all (s : string) : substring 0 (String.length s) s = s.
Proof. induction s as [|c s IH]; simpl; [reflexivity | now rewrite IH]. Qed.

Lemma substring_app_head (s1 s2 : string) :
  substring 0 (String.length s1) (s1 +:+ s2) = s1.
Proof.
  induction s1 as [|c s1 IH]; simpl.
  - now destruct s2.
  - now rewrite IH.
Qed.

Lemma substring_app_tail (s1 s2 : string) :
  substring (String.length s1) (String.length s2) (s1 +:+ s2) = s2.
Proof.
  induction s1 as [|c s1 IH]; simpl; [apply substring_all | exact IH].
Qed.

Lemma substring_split (s : string) : forall n,
  n <= String.length s ->
  s = substring 0 n s +:+ substring n (String.length s - n) s.
Proof.
  induction s as [|c s IH]; intros [|n] Hn; simpl in *;
    try reflexivity; try lia.
  - now rewrite substring_all.
  - change (String c s =
            String c (substring 0 n s +:+ substring n (String.length s - n) s)).
    f_equal. apply IH. lia.
Qed.

Lemma HasPrefix_spec (s prefix : string) :
  HasPrefix s prefix = true <-> exists rest, s = prefix +:+ rest.
Proof.
  unfold HasPrefix. rewrite andb_true_iff, Nat.leb_le, String.eqb_eq. split.
  - intros [Hlen Hsub].
    exists (substring (String.length prefix)
                      (String.length s - String.length prefix) s).
    rewrite <- Hsub at 1. now apply substring_split.
  - intros [rest ->]. split.
    + rewrite length_append. lia.
    + apply substring_app_head.
Qed.

Lemma HasSuffix_spec (s suffix : string) :
  HasSuffix s suffix = true <-> exists front, s = front +:+ suffix.
Proof.
  unfold HasSuffix. rewrite andb_true_iff, Nat.leb_le, String.eqb_eq. split.
  - intros [Hlen Hsub].
    assert (String.length suffix
            = String.length s - (String.length s - String.length suffix)) as E
      by lia.
    rewrite E in Hsub at 2.
    remember (String.length s - String.length suffix) as n eqn:Hn.
    exists (substring 0 n s). rewrite <- Hsub.
    apply substring_split. lia.
  - intros [front ->]. rewrite length_append. split; [lia|].
    replace (String.length front + String.length suffix - String.length suffix)
      with (String.length front) by lia.
    apply substring_app_tail.
Qed.

Lemma TrimPrefix_app (prefix rest : string) :
  TrimPrefix (prefix +:+ rest) prefix = rest.
Proof.
  unfold TrimPrefix.
  assert (HasPrefix (prefix +:+ rest) prefix = true) as ->
    by (apply HasPrefix_spec; eauto).
  rewrite length_append.
  replace (String.length prefix + String.length rest - String.length prefix)
    with (String.length rest) by lia.
  apply substring_app_tail.
Qed.

Lemma TrimPrefix_none (s prefix : string) :
  HasPrefix s prefix = false -> TrimPrefix s prefix = s.
Proof. unfold TrimPrefix. now intros ->. Qed.

Lemma append_assoc (s1 s2 s3 : string) : (s1 +:+ s2) +:+ s3 = s1 +:+ (s2 +:+ s3).
Proof.
  induction s1 as [|c s1 IH]; [reflexivity|].
  change (String c ((s1 +:+ s2) +:+ s3) = String c (s1 +:+ (s2 +:+ s3))).
  now rewrite IH.
Qed.

End GoStringsSpec.

(** ** The index of the bundle *)

Section BundleIndex.

Lemma index_keeps (l : list zip_File) : forall m name,
  is_Some (m !! name) -> is_Some (fold_left index_entry l m !! name).
Proof.
  induction l as [|f l IH]; intros m name H; [exact H|].
  simpl. apply IH. unfold index_entry.
  destruct (decide (Name f = name)) as [->|Hne].
  - rewrite lookup_insert_eq. eauto.
  - now rewrite lookup_insert_ne.
Qed.

Lemma index_other (l : list zip_File) : forall m name,
  Forall (fun f => Name f <> name) l ->
  fold_left index_entry l m !! name = m !! name.
Proof.
  induction l as [|f l IH]; intros m name H; [reflexivity|].
  apply Forall_cons in H as [Hf Hl].
  simpl. rewrite IH by assumption. unfold index_entry. now rewrite lookup_insert_ne.
Qed.

Lemma index_named (l : list zip_File) : forall m name,
  Exists (fun f => Name f = name) l ->
  is_Some (fold_left index_entry l m !! name).
Proof.
  induction l as [|f l IH]; intros m name H; [now apply Exists_nil in H|].
  apply Exists_cons in H as [Hf|Hl]; simpl.
  - apply index_keeps. unfold index_entry. rewrite Hf, lookup_insert_eq. eauto.
  - now apply IH.
Qed.

Lemma index_sound (l : list zip_File) : forall m name f,
  fold_left index_entry l m !! name = Some f ->
  (Name f = name /\ In f l) \/ m !! name = Some f.
Proof.
  induction l as [|g l IH]; intros m name f H; [now right|].
  simpl in H. destruct (IH _ _ _ H) as [[Hn Hin]|Hm].
  - left. split; [exact Hn | now right].
  - unfold index_entry in Hm. destruct (decide (Name g = name)) as [<-|Hne].
    + rewrite lookup_insert_eq in Hm. injection Hm as <-.
      left. split; [reflexivity | now left].
    + rewrite lookup_insert_ne in Hm by assumption. now right.
Qed.

Lemma newZipReader_lookup_sound (stdlib : zip_Reader) (ctxt : Context) name f :
  z_files (newZipReader stdlib ctxt) !! name = Some f ->
  Name f = name /\ In f (File stdlib).
Proof.
  unfold newZipReader. simpl.
  change (fun files file => <[Name file := file]> files) with index_entry.
  intros H. destruct (index_sound _ _ _ _ H) as [?|He]; [assumption|].
  rewrite lookup_empty in He. discriminate.
Qed.

(** X1. The index [newZipReader] builds holds an entry under a name exactly
    when the bundle has an entry of that name; what it holds under a name
    is an entry of the bundle with that name, and of several entries with
    one name it is the last. *)
Theorem newZipReader_index (stdlib : zip_Reader) (ctxt : Context) :
  (forall name,
      z_files (newZipReader stdlib ctxt) !! name = None <->
      Forall (fun f => Name f <> name) (File stdlib))
  /\
  (forall name f,
      z_files (newZipReader stdlib ctxt) !! name = Some f ->
      Name f = name /\ In f (File stdlib))
  /\
  (forall before f after,
      File stdlib = before ++ f :: after ->
      Forall (fun g => Name g <> Name f) after ->
      z_files (newZipReader stdlib ctxt) !! Name f = Some f)
  /\ z_ctxt (newZipReader stdlib ctxt) = ctxt.
Proof.
  unfold newZipReader. simpl.
  change (fun files file => <[Name file := file]> files) with index_entry.
  split; [|split; [|split]].
  - intros name. split.
    + intros Hnone. apply Forall_forall. intros f Hin Hname.
      assert (is_Some (fold_left index_entry (File stdlib) ∅ !! name)) as [g Hg].
      { apply index_named, Exists_exists. eauto. }
      congruence.
    + intros H. rewrite index_other by assumption. apply lookup_empty.
  - intros name f H. destruct (index_sound _ _ _ _ H) as [?|He]; [assumption|].
    rewrite lookup_empty in He. discriminate.
  - intros before f after -> Hafter.
    rewrite fold_left_app. simpl.
    rewrite index_other by assumption.
    unfold index_entry at 1. apply lookup_insert_eq.
  - reflexivity.
Qed.

End BundleIndex.

(** ** What a strategy returns *)

Section Hits.

Variable env : Env.

Lemma computes_Some_inv kind m expected st rc st' :
  computes kind m expected ->
  m st = (Some rc, st') ->
  expected = Some (rc_src rc, rc_data rc)
  /\ rc_fd rc = next_fd st
  /\ next_fd st' = S (next_fd st)
  /\ exists evs, forallb kind evs = true /\ trace st' = trace st ++ evs.
Proof.
  intros Hm E. destruct (Hm st) as (evs & K & E'). rewrite E' in E.
  destruct expected as [[src data]|]; simpl in E; [|discriminate E].
  injection E as <- <-. repeat split. eauto.
Qed.

Lemma computes_None_inv kind m expected st st' :
  computes kind m expected ->
  m st = (None, st') ->
  expected = None
  /\ next_fd st' = next_fd st
  /\ exists evs, forallb kind evs = true /\ trace st' = trace st ++ evs.
Proof.
  intros Hm E. destruct (Hm st) as (evs & K & E'). rewrite E' in E.
  destruct expected as [[src data]|]; simpl in E; [discriminate E|].
  injection E as <-. repeat split. eauto.
Qed.

(** X2. A stream the bundle strategy of an importer returns is the entry of
    the bundle whose name is exactly the architecture directory, the import
    path without its [google3/] prefix, and [.x], and its bytes are what
    that entry opens to. *)
Theorem zipReader_hit_exact (stdlib : zip_Reader) (ctxt : Context)
    (pkg : string) (st st' : State) (rc : ReadCloser) :
  zipReader_findAndOpen (newZipReader stdlib ctxt) pkg st = (Some rc, st') ->
  rc_src rc =
    FromZip (goEnvDir ctxt +:+ "/" +:+ GoStrings.TrimPrefix pkg "google3/" +:+ ".x")
  /\ (exists f,
         In f (File stdlib)
         /\ Name f = goEnvDir ctxt +:+ "/" +:+ GoStrings.TrimPrefix pkg "google3/" +:+ ".x"
         /\ zf_Open f = Ok (rc_data rc)).
Proof.
  intros H.
  destruct (computes_Some_inv _ _ _ _ _ _
              (zipReader_findAndOpen_computes (newZipReader stdlib ctxt) pkg) H)
    as (Hlook & _).
  unfold zip_lookup in Hlook.
  destruct (z_files (newZipReader stdlib ctxt) !! _) as [f|] eqn:Hf;
    [|discriminate Hlook].
  destruct (newZipReader_lookup_sound _ _ _ _ Hf) as [Hname Hin].
  destruct (zf_Open f) as [data|e] eqn:Hopen; [|discriminate Hlook].
  injection Hlook as Hsrc Hdata. unfold zip_key in Hname. simpl in Hname.
  split.
  - now rewrite <- Hsrc, Hname.
  - exists f. repeat split; [exact Hin | exact Hname | now rewrite Hopen, Hdata].
Qed.

(** X3. The bundle strategy and the unmapped strategy answer an import path
    with the [google3/] prefix as they answer the path without it. *)
Theorem google3_prefix_is_stripped (pkg : string) :
  GoStrings.HasPrefix pkg "google3/" = false ->
  (forall z,
      zipReader_findAndOpen z ("google3/" +:+ pkg) = zipReader_findAndOpen z pkg)
  /\
  (forall a,
      unmappedArchives_findAndOpen env a ("google3/" +:+ pkg)
      = unmappedArchives_findAndOpen env a pkg).
Proof.
  intros Hno. split.
  - intros z. unfold zipReader_findAndOpen.
    now rewrite GoStringsSpec.TrimPrefix_app, (GoStringsSpec.TrimPrefix_none _ _ Hno).
  - intros a. unfold unmappedArchives_findAndOpen.
    now rewrite GoStringsSpec.TrimPrefix_app, (GoStringsSpec.TrimPrefix_none _ _ Hno).
Qed.

Lemma first_open_filter_Some (P : string -> bool) (archs : list string) src data :
  first_open env (List.filter P archs) = Some (src, data) ->
  exists before filename after,
    archs = before ++ filename :: after
    /\ P filename = true
    /\ src = FromFile filename
    /\ os_Open env filename = Ok data
    /\ (forall f, In f before -> P f = true -> is_Ok (os_Open env f) = false).
Proof.
  induction archs as [|filename rest IH]; simpl; [discriminate|].
  destruct (P filename) eqn:HP; simpl.
  - destruct (os_Open env filename) as [d|e] eqn:Hopen.
    + intros [= <- <-]. exists [], filename, rest.
      repeat split; try assumption. intros f [].
    + intros H. destruct (IH H) as (before & g & after & -> & HPg & Hsrc & Hg & Hb).
      exists (filename :: before), g, after. repeat split; try assumption.
      intros f [<-|Hin] HPf; [now rewrite Hopen | now apply Hb].
  - intros H. destruct (IH H) as (before & g & after & -> & HPg & Hsrc & Hg & Hb).
    exists (filename :: before), g, after. repeat split; try assumption.
    intros f [<-|Hin] HPf; [congruence | now apply Hb].
Qed.

Lemma first_open_Some_In (paths : list string) src data :
  first_open env paths = Some (src, data) ->
  exists path, In path paths /\ src = FromFile path /\ os_Open env path = Ok data.
Proof.
  induction paths as [|path rest IH]; simpl; [discriminate|].
  destruct (os_Open env path) as [d|e] eqn:Hopen.
  - intros [= <- <-]. exists path. repeat split; [now left | exact Hopen].
  - intros H. destruct (IH H) as (p & Hin & Hsrc & Hp).
    exists p. repeat split; [now right | exact Hsrc | exact Hp].
Qed.

Lemma first_open_is_Some_In (paths : list string) path data :
  In path paths -> os_Open env path = Ok data ->
  exists hit, first_open env paths = Some hit.
Proof.
  induction paths as [|p rest IH]; simpl; [intros []|].
  intros [->|Hin] Hopen.
  - rewrite Hopen. eauto.
  - destruct (os_Open env p); eauto.
Qed.

(** X4. A stream the unmapped strategy returns is the file at a configured
    path that ends in [/], the import path without its [google3/] prefix,
    and [.x]; it is the first such path in the configured order that opens,
    and it is on a descriptor that was free. *)
Theorem unmappedArchives_hit_sound (a : unmappedArchives) (pkg : string)
    (st st' : State) (rc : ReadCloser) :
  unmappedArchives_findAndOpen env a pkg st = (Some rc, st') ->
  exists before filename after front,
    ua_archs a = before ++ filename :: after
    /\ filename = front +:+ "/" +:+ GoStrings.TrimPrefix pkg "google3/" +:+ ".x"
    /\ rc_src rc = FromFile filename
    /\ os_Open env filename = Ok (rc_data rc)
    /\ (forall f,
           In f before ->
           GoStrings.HasSuffix f
             ("/" +:+ GoStrings.TrimPrefix pkg "google3/" +:+ ".x") = true ->
           is_Ok (os_Open env f) = false)
    /\ rc_fd rc = next_fd st
    /\ next_fd st' = S (next_fd st).
Proof.
  intros H.
  destruct (computes_Some_inv _ _ _ _ _ _
              (unmappedArchives_findAndOpen_computes env a pkg) H)
    as (Hlook & Hfd & Hnext & _).
  unfold unmapped_lookup, unmapped_candidates, unmapped_key in Hlook.
  destruct (first_open_filter_Some _ _ _ _ Hlook)
    as (before & filename & after & Harchs & Hsuf & Hsrc & Hopen & Hbefore).
  apply GoStringsSpec.HasSuffix_spec in Hsuf as [front Hfront].
  exists before, filename, after, front. repeat split; assumption.
Qed.

(** X5. Suffix matching does not tell a package from one whose import path
    ends in it: every configured path that answers [q/p] answers [p] as
    well, so whenever the unmapped strategy finds a stream for [q/p] it
    finds one for [p]. *)
Theorem unmappedArchives_suffix_ambiguity (a : unmappedArchives) (p q : string)
    (st : State) :
  GoStrings.HasPrefix p "google3/" = false ->
  GoStrings.HasPrefix (q +:+ "/" +:+ p) "google3/" = false ->
  (forall filename,
      GoStrings.HasSuffix filename (unmapped_key (q +:+ "/" +:+ p)) = true ->
      GoStrings.HasSuffix filename (unmapped_key p) = true)
  /\
  (forall rc st',
      unmappedArchives_findAndOpen env a (q +:+ "/" +:+ p) st = (Some rc, st') ->
      exists rc0 st0,
        unmappedArchives_findAndOpen env a p st = (Some rc0, st0)).
Proof.
  intros Hp Hqp.
  assert (forall filename,
             GoStrings.HasSuffix filename (unmapped_key (q +:+ "/" +:+ p)) = true ->
             GoStrings.HasSuffix filename (unmapped_key p) = true) as Hsuf.
  { intros filename [front ->]%GoStringsSpec.HasSuffix_spec.
    apply GoStringsSpec.HasSuffix_spec.
    unfold unmapped_key.
    rewrite (GoStringsSpec.TrimPrefix_none _ _ Hp),
            (GoStringsSpec.TrimPrefix_none _ _ Hqp).
    exists (front +:+ "/" +:+ q).
    now rewrite !GoStringsSpec.append_assoc. }
  split; [exact Hsuf|].
  intros rc st' H.
  destruct (computes_Some_inv _ _ _ _ _ _
              (unmappedArchives_findAndOpen_computes env a (q +:+ "/" +:+ p)) H)
    as (Hlook & _).
  unfold unmapped_lookup, unmapped_candidates in Hlook.
  destruct (first_open_filter_Some _ _ _ _ Hlook)
    as (before & filename & after & Harchs & Hmatch & _ & Hopen & _).
  destruct (first_open_is_Some_In
              (unmapped_candidates (ua_archs a) (unmapped_key p))
              filename (rc_data rc)) as [hit Hhit].
  { unfold unmapped_candidates. apply filter_In. split; [|now apply Hsuf].
    rewrite Harchs. apply in_or_app. right. now left. }
  { exact Hopen. }
  destruct (unmappedArchives_findAndOpen_computes env a p st) as (evs & _ & E).
  unfold unmapped_lookup in E. rewrite Hhit in E. simpl in E. eauto.
Qed.

Lemma stdlib_candidates_In (archs : list string) (name path : string) :
  In path (stdlib_candidates env archs name) ->
  exists filename,
    In filename archs /\
    ((exists fi, os_Stat env filename = Ok fi /\ IsDir fi = true
                 /\ path = filepath_Join env filename name)
     \/ (path = filename /\ GoStrings.HasSuffix filename name = true)).
Proof.
  induction archs as [|filename rest IH]; simpl; [intros []|].
  intros [Hdir|[Hsuf|Hrest]%in_app_or]%in_app_or.
  - exists filename. split; [now left|]. left.
    destruct (os_Stat env filename) as [fi|e]; [|destruct Hdir].
    destruct (IsDir fi) eqn:Hd; [|destruct Hdir].
    destruct Hdir as [<-|[]]. eauto.
  - exists filename. split; [now left|]. right.
    destruct (GoStrings.HasSuffix filename name); [|destruct Hsuf].
    destruct Hsuf as [<-|[]]. now split.
  - destruct (IH Hrest) as (f & Hin & Hf). exists f. split; [now right | exact Hf].
Qed.

(** X6. A stream the standard-library strategy returns is either the file
    that [filepath.Join] names under a configured directory, or the file at
    a configured path that ends in [/], the architecture directory, [/],
    the import path and [.a]; it is on a descriptor that was free. *)
Theorem stdlibArchives_hit_sound (a : stdlibArchives) (pkg : string)
    (st st' : State) (rc : ReadCloser) :
  stdlibArchives_findAndOpen env a pkg st = (Some rc, st') ->
  (exists filename path,
      In filename (sa_archs a)
      /\ rc_src rc = FromFile path
      /\ os_Open env path = Ok (rc_data rc)
      /\ ((exists fi, os_Stat env filename = Ok fi /\ IsDir fi = true
                      /\ path =
                           filepath_Join env filename
                             ("/" +:+ goEnvDir (sa_ctxt a) +:+ "/" +:+ pkg +:+ ".a"))
          \/ (path = filename
              /\ exists front,
                   filename =
                     front +:+ "/" +:+ goEnvDir (sa_ctxt a) +:+ "/" +:+ pkg +:+ ".a")))
  /\ rc_fd rc = next_fd st
  /\ next_fd st' = S (next_fd st).
Proof.
  intros H.
  destruct (computes_Some_inv _ _ _ _ _ _
              (stdlibArchives_findAndOpen_computes env a pkg) H)
    as (Hlook & Hfd & Hnext & _).
  unfold stdlib_lookup, stdlib_key in Hlook.
  destruct (first_open_Some_In _ _ _ Hlook) as (path & Hin & Hsrc & Hopen).
  destruct (stdlib_candidates_In _ _ _ Hin) as (filename & Hf & Hcase).
  repeat split; try assumption.
  exists filename, path. repeat split; try assumption.
  destruct Hcase as [Hdir|[-> Hsuf]]; [now left|].
  right. split; [reflexivity|].
  now apply GoStringsSpec.HasSuffix_spec in Hsuf.
Qed.

End Hits.

(** ** What construction builds *)

Section Built.

Variable env : Env.

Lemma Count_append (s1 s2 : string) (sep : ascii) :
  GoStrings.Count (s1 +:+ s2) sep = GoStrings.Count s1 sep + GoStrings.Count s2 sep.
Proof.
  induction s1 as [|c s1 IH]; [reflexivity|].
  change (GoStrings.Count (String c (s1 +:+ s2)) sep
          = GoStrings.Count (String c s1) sep + GoStrings.Count s2 sep).
  simpl. rewrite IH. lia.
Qed.

Lemma Split_no_separator (s : string) (sep : ascii) :
  GoStrings.Count s sep = 0 -> GoStrings.Split s sep = [s].
Proof.
  induction s as [|c s IH]; simpl; [reflexivity|].
  destruct (Ascii.eqb c sep); [discriminate|]. simpl.
  intros H. now rewrite IH.
Qed.

Lemma Split_at_separator (name rest : string) (sep : ascii) :
  GoStrings.Count name sep = 0 ->
  GoStrings.Split (name +:+ String sep rest) sep = name :: GoStrings.Split rest sep.
Proof.
  induction name as [|c name IH]; intros H.
  - change (GoStrings.Split (String sep rest) sep = "" :: GoStrings.Split rest sep).
    simpl. now rewrite Ascii.eqb_refl.
  - change (GoStrings.Split (String c (name +:+ String sep rest)) sep
            = String c name :: GoStrings.Split rest sep).
    simpl in *. destruct (Ascii.eqb c sep); [discriminate|].
    now rewrite IH.
Qed.

(** An entry that splits into a name and a file is the two with the
    separator between them. *)
Lemma Split_pair_inv (archive name file : string) :
  GoStrings.Split archive ":" = [name; file] <->
  archive = name +:+ ":" +:+ file
  /\ GoStrings.Count name ":" = 0 /\ GoStrings.Count file ":" = 0.
Proof.
  split.
  - intros E.
    assert (archive = name +:+ ":" +:+ file) as ->.
    { rewrite <- (GoStringsFacts.Join_Split archive ":"), E. reflexivity. }
    split; [reflexivity|].
    pose proof (GoStringsFacts.Split_length (name +:+ ":" +:+ file) ":") as L.
    rewrite E, Count_append in L.
    change (":" +:+ file) with (String ":" file) in L. simpl in L. lia.
  - intros (-> & Hn & Hf).
    change (":" +:+ file) with (String ":" file).
    rewrite Split_at_separator by assumption.
    now rewrite Split_no_separator.
Qed.

Lemma fillMapped_cons_inv archive rest m0 m :
  fillMapped (archive :: rest) m0 = Ok m ->
  exists name file,
    GoStrings.Split archive ":" = [name; file]
    /\ fillMapped rest (<[name := file]> m0) = Ok m.
Proof.
  simpl.
  destruct (GoStrings.Split archive ":") as [|name [|file [|x l]]];
    try discriminate. eauto.
Qed.

Lemma fillMapped_app before after : forall m0 m,
  fillMapped (before ++ after) m0 = Ok m ->
  exists m1, fillMapped before m0 = Ok m1 /\ fillMapped after m1 = Ok m.
Proof.
  induction before as [|archive before IH]; intros m0 m H.
  - exists m0. now split.
  - simpl app in H.
    destruct (fillMapped_cons_inv _ _ _ _ H) as (name & file & E & H').
    destruct (IH _ _ H') as (m1 & Hb & Ha).
    exists m1. split; [|exact Ha]. simpl. now rewrite E.
Qed.

Lemma fillMapped_other mappedArchs : forall m0 m name,
  fillMapped mappedArchs m0 = Ok m ->
  (forall archive file,
      In archive mappedArchs -> GoStrings.Split archive ":" <> [name; file]) ->
  m !! name = m0 !! name.
Proof.
  induction mappedArchs as [|archive rest IH]; intros m0 m name H Hno.
  - now injection H as <-.
  - destruct (fillMapped_cons_inv _ _ _ _ H) as (n & f & E & H').
    rewrite (IH _ _ name H').
    + apply lookup_insert_ne. intros ->. apply (Hno archive f); [now left | exact E].
    + intros a f' Hin. apply Hno. now right.
Qed.

Lemma fillMapped_sound mappedArchs : forall m0 m name file,
  fillMapped mappedArchs m0 = Ok m ->
  m !! name = Some file ->
  m0 !! name = Some file
  \/ exists archive, In archive mappedArchs /\ GoStrings.Split archive ":" = [name; file].
Proof.
  induction mappedArchs as [|archive rest IH]; intros m0 m name file H Hm.
  - injection H as <-. now left.
  - destruct (fillMapped_cons_inv _ _ _ _ H) as (n & f & E & H').
    destruct (IH _ _ _ _ H' Hm) as [H0|(a & Hin & Ha)].
    + destruct (decide (n = name)) as [->|Hne].
      * rewrite lookup_insert_eq in H0. injection H0 as ->.
        right. exists archive. split; [now left | exact E].
      * rewrite lookup_insert_ne in H0 by assumption. now left.
    + right. exists a. split; [now right | exact Ha].
Qed.

Lemma fillMapped_last before name file after : forall m0 m,
  fillMapped (before ++ (name +:+ ":" +:+ file) :: after) m0 = Ok m ->
  (forall file', ~ In (name +:+ ":" +:+ file') after) ->
  m !! name = Some file.
Proof.
  intros m0 m Hfill Hlast.
  destruct (fillMapped_app _ _ _ _ Hfill) as (m1 & _ & Hrest).
  destruct (fillMapped_cons_inv _ _ _ _ Hrest) as (n & f & E & Hafter).
  assert (GoStrings.Split (name +:+ ":" +:+ file) ":" = [name; file]) as E'.
  { pose proof (GoStringsFacts.Split_length (name +:+ ":" +:+ file) ":") as L.
    rewrite E, Count_append in L.
    change (":" +:+ file) with (String ":" file) in L. simpl in L.
    apply Split_pair_inv. repeat split; lia. }
  rewrite E' in E. injection E as <- <-.
  rewrite (fillMapped_other _ _ _ name Hafter).
  - apply lookup_insert_eq.
  - intros archive file' Hin Ha.
    apply Split_pair_inv in Ha as (-> & _). exact (Hlast file' Hin).
Qed.

Lemma NewFromZips_Ok_inv ctxt unmappedArchs mappedArchs stdlibArchs stdlibZips
    st st' i :
  NewFromZips env ctxt unmappedArchs mappedArchs stdlibArchs stdlibZips st
    = (Ok i, st') ->
  exists z m,
    pickStdlibZip env (wantPattern ctxt) stdlibZips st = (Ok z, st')
    /\ fillMapped mappedArchs ∅ = Ok m
    /\ i = New ctxt (Some {| ua_archs := unmappedArchs |}) (Some {| pkgs := m |})
                (Some {| sa_ctxt := ctxt; sa_archs := stdlibArchs |}) z.
Proof.
  intros H. rewrite NewFromZips_run in H.
  destruct (pickStdlibZip env (wantPattern ctxt) stdlibZips st) as [[z|err] st1];
    [|discriminate H].
  destruct (fillMapped mappedArchs ∅) as [m|err]; [|discriminate H].
  injection H as <- <-. eauto.
Qed.

(** X7. The map of the mapped archives that [NewFromZips] builds holds
    [name -> file] only for an entry [name:file] of the list, and for each
    name the file of the last entry with that name. *)
Theorem NewFromZips_mapped_lookup (ctxt : Context)
    (unmappedArchs mappedArchs stdlibArchs stdlibZips : list string)
    (st st' : State) (i : Importer) :
  NewFromZips env ctxt unmappedArchs mappedArchs stdlibArchs stdlibZips st
    = (Ok i, st') ->
  exists m,
    mapped i = Some {| pkgs := m |}
    /\ (forall name file,
           m !! name = Some file -> In (name +:+ ":" +:+ file) mappedArchs)
    /\ (forall before name file after,
           mappedArchs = before ++ (name +:+ ":" +:+ file) :: after ->
           (forall file', ~ In (name +:+ ":" +:+ file') after) ->
           m !! name = Some file).
Proof.
  intros H.
  destruct (NewFromZips_Ok_inv _ _ _ _ _ _ _ _ H) as (z & m & _ & Hfill & ->).
  exists m. split; [reflexivity|]. split.
  - intros name file Hm.
    destruct (fillMapped_sound _ _ _ _ _ Hfill Hm) as [H0|(a & Hin & Ha)].
    + rewrite lookup_empty in H0. discriminate.
    + apply Split_pair_inv in Ha as (-> & _). exact Hin.
  - intros before name file after -> Hlast.
    exact (fillMapped_last _ _ _ _ _ _ Hfill Hlast).
Qed.

Lemma pickStdlibZip_skip pattern before rest : forall st,
  forallb (fun dir => negb (matches env pattern dir)) before = true ->
  pickStdlibZip env pattern (before ++ rest) st =
    pickStdlibZip env pattern rest (after st false (pattern_errors env pattern before)).
Proof.
  induction before as [|dir before IH]; intros st H.
  - simpl. unfold after. simpl. rewrite app_nil_r. now destruct st.
  - simpl in H. apply andb_prop in H as [Hdir Hbefore].
    unfold matches in Hdir. simpl app. simpl pickStdlibZip.
    unfold pattern_errors. simpl flat_map. fold (pattern_errors env pattern before).
    destruct (filepath_Match env pattern (filepath_Base env dir)) as [[|]|e].
    + discriminate Hdir.
    + now rewrite IH.
    + change (pickStdlibZip env pattern (before ++ rest)
                (after st false [EvLog pattern])
              = pickStdlibZip env pattern rest
                  (after st false ([EvLog pattern] ++ pattern_errors env pattern before))).
      rewrite IH by assumption. now rewrite after_after.
Qed.

(** X8. Of the candidate bundles [NewFromZips] opens the first whose base
    name matches the pattern, and no other, also when that one does not
    open; a candidate on which the pattern is in error is logged and passed
    over; with no matching candidate there is no bundle and nothing is
    opened. *)
Theorem pickStdlibZip_first_match (pattern : string) (stdlibZips : list string)
    (st : State) :
  (forall before dir rest,
      stdlibZips = before ++ dir :: rest ->
      forallb (fun d => negb (matches env pattern d)) before = true ->
      matches env pattern dir = true ->
      pickStdlibZip env pattern stdlibZips st =
        (match zip_OpenReader env dir with
         | Ok stdlibZ => Ok (Some stdlibZ)
         | Err err => Err err
         end,
         after st false
           (pattern_errors env pattern before
            ++ [EvZipOpenReader dir (is_Ok (zip_OpenReader env dir))])))
  /\
  (forallb (fun d => negb (matches env pattern d)) stdlibZips = true ->
   pickStdlibZip env pattern stdlibZips st =
     (Ok None, after st false (pattern_errors env pattern stdlibZips))).
Proof.
  split.
  - intros before dir rest -> Hbefore Hdir.
    rewrite pickStdlibZip_skip by assumption.
    unfold matches in Hdir. simpl.
    destruct (filepath_Match env pattern (filepath_Base env dir)) as [[|]|e];
      try discriminate Hdir.
    destruct (zip_OpenReader env dir) as [z|err];
      rewrite <- after_after; reflexivity.
  - intros Hnone.
    rewrite <- (app_nil_r stdlibZips) at 1.
    now rewrite pickStdlibZip_skip.
Qed.

Lemma pickStdlibZip_quiet pattern stdlibZips : forall st r st',
  pickStdlibZip env pattern stdlibZips st = (r, st') ->
  exists evs,
    trace st' = trace st ++ evs
    /\ forallb (fun ev => match ev with
                          | EvLog _ | EvZipOpenReader _ _ => true
                          | _ => false
                          end) evs = true
    /\ match r with
       | Ok (Some z) =>
           exists dir, In dir stdlibZips /\ zip_OpenReader env dir = Ok z
       | _ => True
       end.
Proof.
  induction stdlibZips as [|dir rest IH]; intros st r st' H.
  - injection H as <- <-. exists []. now rewrite app_nil_r.
  - simpl in H.
    destruct (filepath_Match env pattern (filepath_Base env dir)) as [[|]|e].
    + destruct (zip_OpenReader env dir) as [z|err] eqn:Hz;
        unfold bind in H; simpl in H; injection H as <- <-;
        eexists [_]; repeat split.
      exists dir. split; [now left | exact Hz].
    + destruct (IH _ _ _ H) as (evs & Htr & K & Hr).
      exists evs. repeat split; try assumption.
      destruct r as [[z|]|]; try exact I.
      destruct Hr as (d & Hin & Hd). exists d. split; [now right | exact Hd].
    + unfold bind in H. simpl in H.
      destruct (IH _ _ _ H) as (evs & Htr & K & Hr). simpl in Htr.
      exists (EvLog pattern :: evs).
      repeat split.
      * rewrite Htr. now rewrite <- app_assoc.
      * exact K.
      * destruct r as [[z|]|]; try exact I.
        destruct Hr as (d & Hin & Hd). exists d. split; [now right | exact Hd].
Qed.

(** X9. An importer that [NewFromZips] returns has the unmapped and the
    standard-library strategies configured with the lists as given, the
    mapped strategy configured, a bundle strategy only over a candidate
    bundle that opened, and a cache that holds [unsafe] alone; on a cache
    miss [Import] therefore searches the bundle, if there is one, the
    mapped archives, the standard-library archives and the unmapped
    archives. Construction adds to the trace only log lines and the
    opening of a bundle: it closes nothing, and a bundle it opened stays
    open. *)
Theorem NewFromZips_configures (ctxt : Context)
    (unmappedArchs mappedArchs stdlibArchs stdlibZips : list string)
    (st st' : State) (i : Importer) :
  NewFromZips env ctxt unmappedArchs mappedArchs stdlibArchs stdlibZips st
    = (Ok i, st') ->
  imports i = {[ "unsafe" := types_Unsafe ]}
  /\ unmapped i = Some {| ua_archs := unmappedArchs |}
  /\ stdlib i = Some {| sa_ctxt := ctxt; sa_archs := stdlibArchs |}
  /\ (exists ma, mapped i = Some ma
        /\ finders_of env i =
             (match stdlibZip i with
              | Some z => [Some (zipReader_finder z)]
              | None => []
              end)
             ++ [Some (mappedArchives_finder env ma);
                 Some (stdlibArchives_finder env
                         {| sa_ctxt := ctxt; sa_archs := stdlibArchs |});
                 Some (unmappedArchives_finder env
                         {| ua_archs := unmappedArchs |})])
  /\ match stdlibZip i with
     | Some z =>
         exists dir stdlibZ,
           In dir stdlibZips /\ zip_OpenReader env dir = Ok stdlibZ
           /\ z = newZipReader stdlibZ ctxt
     | None => True
     end
  /\ exists evs,
       trace st' = trace st ++ evs
       /\ forallb (fun ev => match ev with
                             | EvLog _ | EvZipOpenReader _ _ => true
                             | _ => false
                             end) evs = true
       /\ forall fd, closes fd evs = 0.
Proof.
  intros H.
  destruct (NewFromZips_Ok_inv _ _ _ _ _ _ _ _ H) as (z & m & Hp & _ & ->).
  destruct (pickStdlibZip_quiet _ _ _ _ _ Hp) as (evs & Htr & K & Hz).
  split; [reflexivity|]. split; [reflexivity|]. split; [reflexivity|].
  split; [|split].
  - exists {| pkgs := m |}. split; [reflexivity|]. now destruct z.
  - destruct z as [z|]; [|exact I]. simpl.
    destruct Hz as (dir & Hin & Hd). eauto.
  - exists evs. split; [exact Htr|]. split; [exact K|].
    intros fd. clear Htr. induction evs as [|ev evs IH]; [reflexivity|].
    simpl in K. apply andb_prop in K as [Kev Kevs].
    destruct ev; try discriminate Kev; simpl; auto.
Qed.

End Built.

(** ** What an import leaves behind *)

Section Imports.

Variable env : Env.

(** [Import] in one equation. *)
Lemma Import_run i importPath st :
  exists evs,
    forallb is_search evs = true
    /\ calls evs = queried (strategies env i importPath)
    /\ Import env i importPath st =
       match cached i importPath with
       | Some pkg => (Ok pkg, i, st)
       | None =>
           match first_hit (strategies env i importPath) with
           | None => (Err (ErrPackageNotFound importPath), i, after st false evs)
           | Some hit =>
               (fst (decoded env i importPath (stream_at st hit)),
                after st true
                  (evs ++ snd (decoded env i importPath (stream_at st hit))))
           end
       end.
Proof.
  destruct (resolve_run env i importPath st) as (evs & K & C & _ & E).
  exists evs. split; [exact K|]. split; [exact C|].
  destruct (cached i importPath) as [pkg|] eqn:Hc.
  - now apply Import_cached.
  - rewrite (Import_uncached env _ _ Hc), E.
    destruct (first_hit (strategies env i importPath)) as [hit|]; [|reflexivity].
    rewrite decode_run. f_equal.
    unfold after. simpl. now rewrite app_assoc.
Qed.

(** X10. [Import] never changes the strategies of the importer, and it
    leaves the cache as it is unless it gets as far as
    [gcexportdata.Read]: on a cache hit, when no stream is found and when
    the decoder's reader cannot be built the importer comes back
    unchanged; otherwise the cache is the one [Read] leaves. *)
Theorem Import_preserves_importer (i i' : Importer) (importPath : string)
    (st st' : State) (res : result Package) :
  Import env i importPath st = (res, i', st') ->
  mapped i' = mapped i
  /\ unmapped i' = unmapped i
  /\ stdlib i' = stdlib i
  /\ stdlibZip i' = stdlibZip i
  /\ (i' = i
      \/ exists hit r,
           cached i importPath = None
           /\ first_hit (strategies env i importPath) = Some hit
           /\ gcexportdata_NewReader env (stream_at st hit) = Ok r
           /\ i' = set_imports i (fst (gcexportdata_Read env r (imports i) importPath))
           /\ res = snd (gcexportdata_Read env r (imports i) importPath)).
Proof.
  intros H. destruct (Import_run i importPath st) as (evs & _ & _ & E).
  rewrite E in H. clear E.
  destruct (cached i importPath) as [pkg|] eqn:Hc.
  { injection H as <- <- <-. repeat split. now left. }
  destruct (first_hit (strategies env i importPath)) as [hit|] eqn:Hhit.
  2:{ injection H as <- <- <-. repeat split. now left. }
  unfold decoded in H.
  destruct (gcexportdata_NewReader env (stream_at st hit)) as [r|err] eqn:Hr.
  - destruct (gcexportdata_Read env r (imports i) importPath) as [m' out] eqn:Hread.
    simpl in H. injection H as <- <- <-. repeat split.
    right. exists hit, r. rewrite Hread. repeat split; assumption.
  - simpl in H. injection H as <- <- <-. repeat split. now left.
Qed.

(** X11. [Import] leaves no descriptor open: it takes at most one
    descriptor, and the events it adds to the trace close each descriptor
    it took exactly once and no other descriptor. *)
Theorem Import_leaks_no_descriptor (i i' : Importer) (importPath : string)
    (st st' : State) (res : result Package) :
  Import env i importPath st = (res, i', st') ->
  next_fd st <= next_fd st' <= S (next_fd st)
  /\ exists evs,
       trace st' = trace st ++ evs
       /\ forall fd,
            closes fd evs =
              if Nat.leb (next_fd st) fd && Nat.ltb fd (next_fd st') then 1 else 0.
Proof.
  intros H. destruct (Import_run i importPath st) as (evs & K & _ & E).
  rewrite E in H. clear E.
  destruct (cached i importPath) as [pkg|].
  { injection H as <- <- <-. split; [lia|]. exists []. split.
    - now rewrite app_nil_r.
    - intros fd. simpl.
      destruct (Nat.leb_spec (next_fd st) fd), (Nat.ltb_spec fd (next_fd st));
        simpl; try reflexivity; lia. }
  destruct (first_hit (strategies env i importPath)) as [hit|].
  2:{ injection H as <- <- <-. simpl. split; [lia|]. exists evs.
      split; [reflexivity|]. intros fd. rewrite (search_no_closes _ _ K).
      destruct (Nat.leb_spec (next_fd st) fd), (Nat.ltb_spec fd (next_fd st));
        simpl; try reflexivity; lia. }
  injection H as _ <-. simpl. split; [lia|].
  exists (evs ++ snd (decoded env i importPath (stream_at st hit))).
  split; [reflexivity|]. intros fd.
  rewrite closes_app, (search_no_closes _ _ K). simpl.
  destruct (Nat.eqb_spec fd (next_fd st)) as [->|Hne].
  - pose proof (decoded_closes_once env i importPath (stream_at st hit)) as Hd.
    change (rc_fd (stream_at st hit)) with (next_fd st) in Hd.
    rewrite Hd, Nat.leb_refl.
    destruct (Nat.ltb_spec (next_fd st) (S (next_fd st))); [reflexivity | lia].
  - assert (closes fd (snd (decoded env i importPath (stream_at st hit))) = 0) as ->.
    { unfold decoded.
      destruct (gcexportdata_NewReader env (stream_at st hit)) as [r|err].
      - destruct (gcexportdata_Read env r (imports i) importPath). simpl.
        destruct (Nat.eqb_spec fd (next_fd st)); [contradiction | reflexivity].
      - simpl. destruct (Nat.eqb_spec fd (next_fd st)); [contradiction | reflexivity]. }
    destruct (Nat.leb_spec (next_fd st) fd), (Nat.ltb_spec fd (S (next_fd st)));
      simpl; try reflexivity; lia.
Qed.

Lemma queried_all_miss {X} (l : list (string * option X)) :
  first_hit l = None -> queried l = map fst l.
Proof.
  induction l as [|[dyn [x|]] l IH]; simpl; intros H;
    [reflexivity | discriminate | now rewrite IH].
Qed.

(** X12. A failed search is a full search, and it is not remembered: when
    the path is not in the cache and no store offers a stream, [Import]
    calls each configured strategy once, in the order bundle, mapped,
    standard library, unmapped, takes no descriptor, and returns the
    importer as it was, so that the next [Import] of the path searches
    again. *)
Theorem Import_miss_queries_all (i : Importer) (importPath : string) :
  cached i importPath = None ->
  first_hit (strategies env i importPath) = None ->
  forall st, exists evs,
    Import env i importPath st
      = (Err (ErrPackageNotFound importPath), i, after st false evs)
    /\ forallb is_search evs = true
    /\ calls evs =
         (match stdlibZip i with Some _ => ["*zipReader"] | None => [] end)
         ++ (match mapped i with Some _ => ["*mappedArchives"] | None => [] end)
         ++ (match stdlib i with Some _ => ["*stdlibArchives"] | None => [] end)
         ++ (match unmapped i with Some _ => ["*unmappedArchives"] | None => [] end).
Proof.
  intros Hc Hnone st.
  destruct (Import_run i importPath st) as (evs & K & C & E).
  rewrite Hc, Hnone in E. exists evs. split; [exact E|]. split; [exact K|].
  rewrite C, (queried_all_miss _ Hnone). unfold strategies.
  now destruct (stdlibZip i), (mapped i), (stdlib i), (unmapped i).
Qed.

(** X13. From the configuration to the stream: on an importer that
    [NewFromZips] built without a bundle, the import of a path other than
    [unsafe] that the mapped-archive list names, with a file that opens,
    decodes that file, the one of the last entry for the path, after a call
    of the mapped strategy alone. *)
Theorem mapped_entry_is_imported (ctxt : Context)
    (unmappedArchs stdlibArchs before after_ : list string)
    (name file data : string) (st0 st1 : State) (i : Importer) :
  NewFromZips env ctxt unmappedArchs
    (before ++ (name +:+ ":" +:+ file) :: after_) stdlibArchs [] st0 = (Ok i, st1) ->
  (forall file', ~ In (name +:+ ":" +:+ file') after_) ->
  name <> "unsafe" ->
  os_Open env file = Ok data ->
  forall st,
    Import env i name st =
      decode env i name (stream_at st (FromFile file, data))
        (after st true [EvCall "*mappedArchives" name;
                        EvOpen file (Some (next_fd st))]).
Proof.
  intros Hnew Hlast Hne Hopen st.
  destruct (NewFromZips_Ok_inv env _ _ _ _ _ _ _ _ Hnew) as (z & m & Hp & Hfill & ->).
  injection Hp as <- _.
  pose proof (fillMapped_last _ _ _ _ _ _ Hfill Hlast) as Hfile.
  assert (invoke (mappedArchives_finder env {| pkgs := m |}) name st =
          (Some (stream_at st (FromFile file, data)),
           after st true [EvCall "*mappedArchives" name;
                          EvOpen file (Some (next_fd st))])) as Hinvoke.
  { rewrite invoke_run. cbn [findAndOpen mappedArchives_finder dyn_type].
    unfold mappedArchives_findAndOpen. cbn [pkgs]. rewrite Hfile.
    unfold bind. rewrite Open_run, Hopen. unfold ret, after, stream_at.
    cbn [next_fd trace fst snd]. now rewrite <- app_assoc. }
  rewrite (Import_uncached env _ _ (New_cached_other _ _ _ _ _ _ Hne)).
  unfold resolve, bind. rewrite finders_of_order.
  cbn [New stdlibZip mapped app]. now rewrite (find_hit_head _ _ _ _ _ _ Hinvoke).
Qed.

(** X14. [find] over two lists one after the other is [find] over the
    first and, when that reports absent, [find] over the second from the
    state the first left. *)
Theorem find_app (l1 l2 : list (option finder)) (pkg : string) (st : State) :
  find (l1 ++ l2) pkg st =
  match find l1 pkg st with
  | (Some rc, st1) => (Some rc, st1)
  | (None, st1) => find l2 pkg st1
  end.
Proof.
  revert st. induction l1 as [|[f|] l1 IH]; intros st.
  - reflexivity.
  - simpl. unfold bind. destruct (invoke f pkg st) as [[rc|] st1]; [reflexivity|].
    apply IH.
  - apply IH.
Qed.

End Imports.

(** ** What a miss means *)

Section Misses.

Variable env : Env.

Lemma first_open_None_Forall (paths : list string) :
  first_open env paths = None ->
  forall path, In path paths -> is_Ok (os_Open env path) = false.
Proof.
  induction paths as [|p rest IH]; simpl; [intros _ path []|].
  destruct (os_Open env p) as [d|e] eqn:Hopen; [discriminate|].
  intros H path [<-|Hin]; [now rewrite Hopen | now apply IH].
Qed.

Lemma stdlib_candidates_complete (archs : list string) (name filename : string) :
  In filename archs ->
  (forall fi, os_Stat env filename = Ok fi -> IsDir fi = true ->
              In (filepath_Join env filename name) (stdlib_candidates env archs name))
  /\ (GoStrings.HasSuffix filename name = true ->
      In filename (stdlib_candidates env archs name)).
Proof.
  induction archs as [|f rest IH]; [intros []|].
  intros [->|Hin]; simpl.
  - split.
    + intros fi Hstat Hdir. rewrite Hstat, Hdir. now left.
    + intros Hsuf. rewrite Hsuf. apply in_or_app. right. now left.
  - destruct (IH Hin) as [Hd Hs]. split.
    + intros fi Hstat Hdir. apply in_or_app. right. apply in_or_app. right. eauto.
    + intros Hsuf. apply in_or_app. right. apply in_or_app. right. auto.
Qed.

(** X15. When a suffix-match strategy reports absent, nothing it could
    have returned opens, and it took no descriptor: for the unmapped
    strategy no configured path that ends in the key opens; for the
    standard-library strategy, no file under a configured directory and no
    configured path that ends in the key opens. *)
Theorem suffix_miss_means_nothing_opens (pkg : string) (st st' : State) :
  (forall a,
      unmappedArchives_findAndOpen env a pkg st = (None, st') ->
      next_fd st' = next_fd st
      /\ forall filename,
           In filename (ua_archs a) ->
           GoStrings.HasSuffix filename
             ("/" +:+ GoStrings.TrimPrefix pkg "google3/" +:+ ".x") = true ->
           is_Ok (os_Open env filename) = false)
  /\
  (forall a,
      stdlibArchives_findAndOpen env a pkg st = (None, st') ->
      next_fd st' = next_fd st
      /\ forall filename,
           In filename (sa_archs a) ->
           (forall fi,
               os_Stat env filename = Ok fi -> IsDir fi = true ->
               is_Ok (os_Open env
                        (filepath_Join env filename
                           ("/" +:+ goEnvDir (sa_ctxt a) +:+ "/" +:+ pkg +:+ ".a")))
               = false)
           /\ (GoStrings.HasSuffix filename
                 ("/" +:+ goEnvDir (sa_ctxt a) +:+ "/" +:+ pkg +:+ ".a") = true ->
               is_Ok (os_Open env filename) = false)).
Proof.
  split.
  - intros a H.
    destruct (computes_None_inv _ _ _ _ _
                (unmappedArchives_findAndOpen_computes env a pkg) H)
      as (Hlook & Hfd & _).
    split; [exact Hfd|]. intros filename Hin Hsuf.
    apply (first_open_None_Forall _ Hlook).
    unfold unmapped_candidates, unmapped_key. apply filter_In. now split.
  - intros a H.
    destruct (computes_None_inv _ _ _ _ _
                (stdlibArchives_findAndOpen_computes env a pkg) H)
      as (Hlook & Hfd & _).
    split; [exact Hfd|]. intros filename Hin.
    destruct (stdlib_candidates_complete (sa_archs a)
                (stdlib_key (sa_ctxt a) pkg) filename Hin) as [Hd Hs].
    split.
    + intros fi Hstat Hdir. apply (first_open_None_Forall _ Hlook). eauto.
    + intros Hsuf. apply (first_open_None_Forall _ Hlook). auto.
Qed.

End Misses.

(** ** The further properties at work on the sample world *)

Section MoreSampleRuns.

Import Sample.

(** The index of the sample bundle, and of a bundle with two entries of
    one name. *)
Lemma newZipReader_index_witness :
  z_files (newZipReader bundle ctxt) !! "linux_amd64/os.x" = None
  /\ (Name {| Name := "linux_amd64/errors.x"; zf_Open := Ok "bundle errors" |}
        = "linux_amd64/errors.x"
      /\ In {| Name := "linux_amd64/errors.x"; zf_Open := Ok "bundle errors" |}
            (File bundle))
  /\ z_files
       (newZipReader
          {| File := [ {| Name := "n"; zf_Open := Ok "first" |};
                       {| Name := "m"; zf_Open := Ok "other" |};
                       {| Name := "n"; zf_Open := Ok "second" |} ] |} ctxt)
       !! "n"
     = Some {| Name := "n"; zf_Open := Ok "second" |}.
Proof.
  destruct (newZipReader_index bundle ctxt) as (Hnone & Hsome & _).
  destruct (newZipReader_index
              {| File := [ {| Name := "n"; zf_Open := Ok "first" |};
                           {| Name := "m"; zf_Open := Ok "other" |};
                           {| Name := "n"; zf_Open := Ok "second" |} ] |} ctxt)
    as (_ & _ & Hlast & _).
  split; [|split].
  - apply Hnone. repeat constructor; discriminate.
  - apply Hsome. vm_compute. reflexivity.
  - apply (Hlast [ {| Name := "n"; zf_Open := Ok "first" |};
                   {| Name := "m"; zf_Open := Ok "other" |} ]
                 {| Name := "n"; zf_Open := Ok "second" |} []).
    + reflexivity.
    + constructor.
Defined.

(** [google3/errors] in the sample bundle. *)
Lemma zipReader_hit_exact_witness :
  rc_src {| rc_fd := 3; rc_src := FromZip "linux_amd64/errors.x";
            rc_data := "bundle errors" |}
    = FromZip (goEnvDir ctxt +:+ "/"
               +:+ GoStrings.TrimPrefix "google3/errors" "google3/" +:+ ".x")
  /\ (exists f,
         In f (File bundle)
         /\ Name f = goEnvDir ctxt +:+ "/"
                     +:+ GoStrings.TrimPrefix "google3/errors" "google3/" +:+ ".x"
         /\ zf_Open f = Ok "bundle errors").
Proof.
  apply (zipReader_hit_exact bundle ctxt "google3/errors" st0
           (snd (zipReader_findAndOpen (newZipReader bundle ctxt)
                   "google3/errors" st0))
           {| rc_fd := 3; rc_src := FromZip "linux_amd64/errors.x";
              rc_data := "bundle errors" |}).
  vm_compute. reflexivity.
Defined.

(** [google3/errors] and [errors]. *)
Lemma google3_prefix_is_stripped_witness :
  zipReader_findAndOpen zipped ("google3/" +:+ "errors")
    = zipReader_findAndOpen zipped "errors"
  /\ unmappedArchives_findAndOpen world
       {| ua_archs := ["/third_party/golang.org/x/crypto/errors.x"] |}
       ("google3/" +:+ "errors")
     = unmappedArchives_findAndOpen world
         {| ua_archs := ["/third_party/golang.org/x/crypto/errors.x"] |} "errors".
Proof.
  destruct (google3_prefix_is_stripped world "errors" eq_refl) as [Hzip Hun].
  split; [apply Hzip | apply Hun].
Defined.

(** The unmapped strategy passes over a path that does not open. *)
Lemma unmappedArchives_hit_sound_witness :
  exists before filename after front,
    ["/lost/errors.x"; "/third_party/golang.org/x/crypto/errors.x"]
      = before ++ filename :: after
    /\ filename = front +:+ "/" +:+ GoStrings.TrimPrefix "errors" "google3/" +:+ ".x"
    /\ FromFile "/third_party/golang.org/x/crypto/errors.x" = FromFile filename
    /\ os_Open world filename = Ok "third-party errors".
Proof.
  destruct (unmappedArchives_hit_sound world
              {| ua_archs := ["/lost/errors.x";
                              "/third_party/golang.org/x/crypto/errors.x"] |}
              "errors" st0
              (snd (unmappedArchives_findAndOpen world
                      {| ua_archs := ["/lost/errors.x";
                                      "/third_party/golang.org/x/crypto/errors.x"] |}
                      "errors" st0))
              {| rc_fd := 3;
                 rc_src := FromFile "/third_party/golang.org/x/crypto/errors.x";
                 rc_data := "third-party errors" |})
    as (before & filename & after & front & H1 & H2 & H3 & H4 & _).
  - vm_compute. reflexivity.
  - exists before, filename, after, front. repeat split; assumption.
Defined.

(** The archive of [golang.org/x/crypto/errors] answers [errors]. *)
Lemma unmappedArchives_suffix_ambiguity_witness :
  GoStrings.HasSuffix "/third_party/golang.org/x/crypto/errors.x"
    (unmapped_key "errors") = true
  /\ exists rc0 st1,
       unmappedArchives_findAndOpen world
         {| ua_archs := ["/third_party/golang.org/x/crypto/errors.x"] |}
         "errors" st0 = (Some rc0, st1).
Proof.
  destruct (unmappedArchives_suffix_ambiguity world
              {| ua_archs := ["/third_party/golang.org/x/crypto/errors.x"] |}
              "errors" "golang.org/x/crypto" st0 eq_refl eq_refl) as [Hsuf Hfind].
  split.
  - apply Hsuf. vm_compute. reflexivity.
  - apply (Hfind {| rc_fd := 3;
                    rc_src := FromFile "/third_party/golang.org/x/crypto/errors.x";
                    rc_data := "third-party errors" |}
                 (snd (unmappedArchives_findAndOpen world
                         {| ua_archs := ["/third_party/golang.org/x/crypto/errors.x"] |}
                         ("golang.org/x/crypto" +:+ "/" +:+ "errors") st0))).
    vm_compute. reflexivity.
Defined.

(** [fmt] is found under the configured directory. *)
Lemma stdlibArchives_hit_sound_witness :
  (exists filename path,
      In filename ["/std/linux_amd64/errors.a"; "/goroot/pkg"]
      /\ FromFile "/goroot/pkg/linux_amd64/fmt.a" = FromFile path
      /\ os_Open world path = Ok "stdlib fmt"
      /\ ((exists fi, os_Stat world filename = Ok fi /\ IsDir fi = true
                      /\ path = filepath_Join world filename
                                  ("/" +:+ goEnvDir ctxt +:+ "/" +:+ "fmt" +:+ ".a"))
          \/ (path = filename
              /\ exists front,
                   filename = front +:+ "/" +:+ goEnvDir ctxt +:+ "/" +:+ "fmt" +:+ ".a")))
  /\ 3 = next_fd st0.
Proof.
  destruct (stdlibArchives_hit_sound world
              {| sa_ctxt := ctxt;
                 sa_archs := ["/std/linux_amd64/errors.a"; "/goroot/pkg"] |}
              "fmt" st0
              (snd (stdlibArchives_findAndOpen world
                      {| sa_ctxt := ctxt;
                         sa_archs := ["/std/linux_amd64/errors.a"; "/goroot/pkg"] |}
                      "fmt" st0))
              {| rc_fd := 3; rc_src := FromFile "/goroot/pkg/linux_amd64/fmt.a";
                 rc_data := "stdlib fmt" |}) as (H & Hfd & _).
  - vm_compute. reflexivity.
  - split; [exact H | exact Hfd].
Defined.

(** Two entries for [errors]: the later one stays. *)
Lemma NewFromZips_mapped_lookup_witness :
  match fst (NewFromZips world ctxt []
               ["errors:/old/errors.a"; "fmt:/lib/fmt.a"; "errors:/ext/errors.a"]
               [] [] st0) with
  | Ok i =>
      exists m,
        mapped i = Some {| pkgs := m |}
        /\ m !! "errors" = Some "/ext/errors.a"
  | Err _ => False
  end.
Proof.
  destruct (NewFromZips world ctxt []
              ["errors:/old/errors.a"; "fmt:/lib/fmt.a"; "errors:/ext/errors.a"]
              [] [] st0) as [[i|e] st1] eqn:E; simpl.
  - destruct (NewFromZips_mapped_lookup world ctxt [] _ [] [] st0 st1 i E)
      as (m & Hm & _ & Hlast).
    exists m. split; [exact Hm|].
    apply (Hlast ["errors:/old/errors.a"; "fmt:/lib/fmt.a"]
                 "errors" "/ext/errors.a" []).
    + reflexivity.
    + intros file' [].
  - vm_compute in E. discriminate E.
Defined.

(** Three candidate bundles: the first does not match, the second is
    opened, the third is left alone. *)
Lemma pickStdlibZip_first_match_witness :
  pickStdlibZip world (wantPattern ctxt)
    ["/zips/README"; "/zips/linux_amd64.x.zip"; "/zips/linux_amd64_race.x.zip"] st0
  = (Ok (Some bundle),
     after st0 false [EvZipOpenReader "/zips/linux_amd64.x.zip" true])
  /\ pickStdlibZip world (wantPattern ctxt) ["/zips/README"] st0
     = (Ok None, after st0 false []).
Proof.
  destruct (pickStdlibZip_first_match world (wantPattern ctxt)
              ["/zips/README"; "/zips/linux_amd64.x.zip";
               "/zips/linux_amd64_race.x.zip"] st0) as [Hfirst _].
  destruct (pickStdlibZip_first_match world (wantPattern ctxt)
              ["/zips/README"] st0) as [_ Hnone].
  split.
  - apply (Hfirst ["/zips/README"] "/zips/linux_amd64.x.zip"
                  ["/zips/linux_amd64_race.x.zip"]);
      vm_compute; reflexivity.
  - apply Hnone. vm_compute. reflexivity.
Defined.

(** The importer built from the sample bundle and one mapped archive. *)
Lemma NewFromZips_configures_witness :
  match fst built with
  | Ok i =>
      imports i = {[ "unsafe" := types_Unsafe ]}
      /\ unmapped i = Some {| ua_archs := [] |}
      /\ stdlib i = Some {| sa_ctxt := ctxt; sa_archs := [] |}
      /\ exists evs,
           trace (snd built) = trace st0 ++ evs
           /\ forall fd, closes fd evs = 0
  | Err _ => False
  end.
Proof.
  destruct built as [[i|e] st1] eqn:E; simpl.
  - destruct (NewFromZips_configures world ctxt [] ["errors:/ext/errors.a"] []
                ["/zips/linux_amd64.x.zip"] st0 st1 i E)
      as (H1 & H2 & H3 & _ & _ & evs & H4 & _ & H5).
    split; [exact H1|]. split; [exact H2|]. split; [exact H3|].
    exists evs. split; [exact H4 | exact H5].
  - vm_compute in E. discriminate E.
Defined.

(** [errors] on [suffix_only]: the strategies stay, the cache is the one
    the decoder leaves, and descriptor 3 is taken and closed. *)
Lemma Import_preserves_importer_witness :
  let r := Import world suffix_only "errors" st0 in
  mapped (snd (fst r)) = mapped suffix_only
  /\ unmapped (snd (fst r)) = unmapped suffix_only
  /\ stdlib (snd (fst r)) = stdlib suffix_only
  /\ stdlibZip (snd (fst r)) = stdlibZip suffix_only.
Proof.
  intros r.
  destruct (Import_preserves_importer world suffix_only (snd (fst r)) "errors"
              st0 (snd r) (fst (fst r))) as (H1 & H2 & H3 & H4 & _).
  - subst r. now destruct (Import world suffix_only "errors" st0) as [[res i'] st'].
  - repeat split; assumption.
Defined.

Lemma Import_leaks_no_descriptor_witness :
  let r := Import world suffix_only "errors" st0 in
  next_fd st0 <= next_fd (snd r) <= S (next_fd st0)
  /\ exists evs,
       trace (snd r) = trace st0 ++ evs
       /\ forall fd,
            closes fd evs =
              if Nat.leb (next_fd st0) fd && Nat.ltb fd (next_fd (snd r))
              then 1 else 0.
Proof.
  intros r.
  apply (Import_leaks_no_descriptor world suffix_only (snd (fst r)) "errors"
           st0 (snd r) (fst (fst r))).
  subst r. now destruct (Import world suffix_only "errors" st0) as [[res i'] st'].
Defined.

(** [os] on [suffix_only]: the three configured strategies are called. *)
Lemma Import_miss_queries_all_witness :
  exists evs,
    Import world suffix_only "os" st0
      = (Err (ErrPackageNotFound "os"), suffix_only, after st0 false evs)
    /\ forallb is_search evs = true
    /\ calls evs = ["*mappedArchives"; "*stdlibArchives"; "*unmappedArchives"].
Proof.
  apply (Import_miss_queries_all world suffix_only "os"); vm_compute; reflexivity.
Defined.

(** [errors] is imported from the file of its last entry. *)
Lemma mapped_entry_is_imported_witness :
  match fst (NewFromZips world ctxt []
               ["errors:/old/errors.a"; "errors:/ext/errors.a"] [] [] st0) with
  | Ok i =>
      Import world i "errors" st0 =
        decode world i "errors"
          (stream_at st0 (FromFile "/ext/errors.a", "mapped errors"))
          (after st0 true [EvCall "*mappedArchives" "errors";
                           EvOpen "/ext/errors.a" (Some (next_fd st0))])
  | Err _ => False
  end.
Proof.
  destruct (NewFromZips world ctxt []
              ["errors:/old/errors.a"; "errors:/ext/errors.a"] [] [] st0)
    as [[i|e] st1] eqn:E; simpl.
  - apply (mapped_entry_is_imported world ctxt [] [] ["errors:/old/errors.a"] []
             "errors" "/ext/errors.a" "mapped errors" st0 st1 i E).
    + intros file' [].
    + discriminate.
    + reflexivity.
  - vm_compute in E. discriminate E.
Defined.

(** [os] is in no archive; the locked archive of [errors] does not open. *)
Lemma suffix_miss_means_nothing_opens_witness :
  (forall filename,
      In filename ["/lost/os.x"; "/third_party/golang.org/x/crypto/errors.x"] ->
      GoStrings.HasSuffix filename
        ("/" +:+ GoStrings.TrimPrefix "os" "google3/" +:+ ".x") = true ->
      is_Ok (os_Open world filename) = false)
  /\ is_Ok (os_Open world "/locked/linux_amd64/errors.a") = false.
Proof.
  destruct (suffix_miss_means_nothing_opens world "os" st0
              (after st0 false [EvOpen "/lost/os.x" None])) as [Hun _].
  destruct (suffix_miss_means_nothing_opens world "errors" st0
              (after st0 false [EvStat "/locked/linux_amd64/errors.a";
                                EvOpen "/locked/linux_amd64/errors.a" None]))
    as [_ Hstd].
  split.
  - apply (Hun {| ua_archs := ["/lost/os.x";
                               "/third_party/golang.org/x/crypto/errors.x"] |}).
    vm_compute. reflexivity.
  - destruct (Hstd {| sa_ctxt := ctxt;
                      sa_archs := ["/locked/linux_amd64/errors.a"] |}) as [_ H].
    + vm_compute. reflexivity.
    + apply (H "/locked/linux_amd64/errors.a"); [now left | reflexivity].
Defined.

End MoreSampleRuns.
